(** * mycroft.util.log: the LOG logging facade

    A shallow embedding of [src/mycroft/util/log.py] and of the parts of
    Python's [logging] and [inspect] libraries that the module calls, with
    the properties of the facade stated and proved over it.

    Python objects that the module mutates (the class attributes of [LOG],
    the root logger, the logger registry, standard output) are fields of one
    explicit state record; every operation is a function in a small
    state-and-exception monad in which a raised exception keeps the state
    changes made before it, as in Python. *)

From Stdlib Require Import ZArith String Ascii List Bool Lia.
From stdpp Require Import base option gmap strings list fin_maps pretty.

Local Open Scope string_scope.
Local Open Scope Z_scope.

(** ** Python values and exceptions *)

(** The values that reach the facade: a configuration entry or the argument
    of [LOG(name)] is [None], a bool, an int or a str. *)
Inductive value : Type :=
  | VNone
  | VBool (b : bool)
  | VInt (z : Z)
  | VStr (s : string).

#[global] Instance value_eq_dec : EqDecision value.
Proof. solve_decision. Defined.

(** Instances of [Exception], by class.  [except Exception] catches every
    one of them. *)
Inductive exn : Type :=
  | TypeError
  | ValueError
  | IndexError
  | KeyError
  | OtherException (cls : string).

Inductive py_result (A : Type) : Type :=
  | Ok (a : A)
  | Raise (e : exn).
Arguments Ok {A} a.
Arguments Raise {A} e.

(** [bool(v)] *)
Definition truthy (v : value) : bool :=
  match v with
  | VNone => false
  | VBool b => b
  | VInt z => negb (z =? 0)
  | VStr s => negb (String.eqb s "")
  end.

(** [a or b] *)
Definition py_or (a b : value) : value := if truthy a then a else b.

(** [str(z)] for an int. *)
Definition str_int (z : Z) : string := pretty z.

(** [str(v)] *)
Definition py_str (v : value) : string :=
  match v with
  | VNone => "None"
  | VBool true => "True"
  | VBool false => "False"
  | VInt z => str_int z
  | VStr s => s
  end.

(** The int a dictionary with int keys compares a key to: [True == 1] and
    [False == 0] hash alike; [None] and strings equal no int. *)
Definition as_int_key (v : value) : option Z :=
  match v with
  | VInt z => Some z
  | VBool b => Some (if b then 1 else 0)
  | _ => None
  end.

(** ** Text helpers: padding as [str.format] and [%]-formatting do it *)

Fixpoint spaces (n : nat) : string :=
  match n with
  | O => ""
  | S n' => String " " (spaces n')
  end.

Fixpoint zeros (n : nat) : string :=
  match n with
  | O => ""
  | S n' => String "0" (zeros n')
  end.

(** [format(s, "w")] for a str: left-justified, spaces appended up to the
    minimum width [w]; a longer string is kept whole. *)
Definition ljust (w : nat) (s : string) : string :=
  s +:+ spaces (w - String.length s)%nat.

(** [format(z, "w")] for an int: right-justified, spaces prepended up to the
    minimum width [w]; a longer number is kept whole. *)
Definition rjust (w : nat) (s : string) : string :=
  spaces (w - String.length s)%nat +:+ s.

(** ["%03d" % z] *)
Definition pct_03d (z : Z) : string :=
  if z <? 0
  then "-" +:+ zeros (2 - String.length (str_int (- z)))%nat +:+ str_int (- z)
  else zeros (3 - String.length (str_int z))%nat +:+ str_int z.

(** ** [str.format] on the replacement fields the template uses

    Only [{field}] and [{field:width}] occur in [LOG.log_message_format];
    any other syntax (escaped braces, conversions, alignment flags) makes
    [py_format] answer [None]. *)

Inductive fval : Type :=
  | FStr (s : string)
  | FInt (z : Z).

Definition digit_of (c : ascii) : option nat :=
  let n := nat_of_ascii c in
  if (48 <=? n)%nat && (n <=? 57)%nat then Some (n - 48)%nat else None.

Fixpoint parse_width (acc : nat) (spec : string) : option nat :=
  match spec with
  | EmptyString => Some acc
  | String c rest =>
      match digit_of c with
      | Some d => parse_width (10 * acc + d)%nat rest
      | None => None
      end
  end.

(** [format(v, spec)]: an empty spec is [str(v)]; a width pads a str on the
    right and an int on the left. *)
Definition format_value (spec : string) (v : fval) : option string :=
  match spec with
  | EmptyString =>
      Some (match v with FStr s => s | FInt z => str_int z end)
  | _ =>
      match parse_width 0 spec with
      | Some w =>
          Some (match v with
                | FStr s => ljust w s
                | FInt z => rjust w (str_int z)
                end)
      | None => None
      end
  end.

Inductive fmt_mode : Type :=
  | InText
  | InField (field : string)
  | InSpec (field spec : string).

Definition snoc_char (s : string) (c : ascii) : string := s +:+ String c "".

Fixpoint py_format (fields : string -> option fval) (mode : fmt_mode)
    (tpl : string) : option string :=
  match tpl with
  | EmptyString =>
      match mode with
      | InText => Some ""
      | _ => None
      end
  | String c rest =>
      match mode with
      | InText =>
          if Ascii.eqb c "{" then py_format fields (InField "") rest
          else if Ascii.eqb c "}" then None
          else String c <$> py_format fields InText rest
      | InField f =>
          if Ascii.eqb c "}" then
            v ← fields f;
            s ← format_value "" v;
            (append s) <$> py_format fields InText rest
          else if Ascii.eqb c ":" then py_format fields (InSpec f "") rest
          else py_format fields (InField (snoc_char f c)) rest
      | InSpec f sp =>
          if Ascii.eqb c "}" then
            v ← fields f;
            s ← format_value sp v;
            (append s) <$> py_format fields InText rest
          else py_format fields (InSpec f (snoc_char sp c)) rest
      end
  end.

(** ** The process state

    One record for every object the module reads or writes. *)

(** A handler object: [h_id] is its identity, [h_level] its threshold. *)
Record Handler : Type := {
  h_id : nat;
  h_level : Z
}.

#[global] Instance Handler_eq_dec : EqDecision Handler.
Proof. solve_decision. Defined.

(** The attributes of a [logging.Logger] that the module touches. *)
Record Logger : Type := {
  logger_level : Z;
  propagate : bool;
  handlers : list Handler
}.

(** The attributes of a [logging.LogRecord] that the formatter reads.
    [created] is [time.strftime] of the creation time to the second and
    [msecs] its millisecond part; [message] is [record.getMessage()]. *)
Record LogRecord : Type := {
  name : string;
  levelno : Z;
  levelname : string;
  process : Z;
  created : string;
  msecs : Z;
  message : string;
  exc_text : option string
}.

Record State : Type := {
  _custom_name : value;               (* LOG._custom_name *)
  level : value;                      (* LOG.level *)
  root : Logger;                      (* logging.root *)
  loggerDict : gmap string Logger;    (* logging.Logger.manager.loggerDict *)
  emitted : list (Handler * LogRecord) (* every Handler.emit so far *)
}.

Definition set__custom_name (v : value) (s : State) : State :=
  {| _custom_name := v; level := level s; root := root s;
     loggerDict := loggerDict s; emitted := emitted s |}.

Definition set_level (v : value) (s : State) : State :=
  {| _custom_name := _custom_name s; level := v; root := root s;
     loggerDict := loggerDict s; emitted := emitted s |}.

Definition set_root (l : Logger) (s : State) : State :=
  {| _custom_name := _custom_name s; level := level s; root := l;
     loggerDict := loggerDict s; emitted := emitted s |}.

Definition set_loggerDict (d : gmap string Logger) (s : State) : State :=
  {| _custom_name := _custom_name s; level := level s; root := root s;
     loggerDict := d; emitted := emitted s |}.

Definition add_emitted (es : list (Handler * LogRecord)) (s : State) : State :=
  {| _custom_name := _custom_name s; level := level s; root := root s;
     loggerDict := loggerDict s; emitted := emitted s ++ es |}.

(** ** The state-and-exception monad *)

Definition M (A : Type) : Type := State -> py_result A * State.

Definition ret {A} (a : A) : M A := fun s => (Ok a, s).

Definition raise {A} (e : exn) : M A := fun s => (Raise e, s).

Definition bind {A B} (m : M A) (k : A -> M B) : M B :=
  fun s =>
    match m s with
    | (Ok a, s') => k a s'
    | (Raise e, s') => (Raise e, s')
    end.

Definition modify (f : State -> State) : M unit := fun s => (Ok tt, f s).

Definition gets {A} (f : State -> A) : M A := fun s => (Ok (f s), s).

Definition lift {A} (r : py_result A) : M A := fun s => (r, s).

Declare Scope py_scope.
Delimit Scope py_scope with py.
Notation "'let*' x := m 'in' k" := (bind m (fun x => k))
  (at level 10, x name, m at level 100, k at level 200) : py_scope.
Notation "'do*' m 'in' k" := (bind m (fun _ => k))
  (at level 10, m at level 100, k at level 200) : py_scope.
Local Open Scope py_scope.

(** [try: body  except Exception: handler], for a body that only reads. *)
Definition try_except {A} (body : py_result A) (handler : A) : A :=
  match body with
  | Ok a => a
  | Raise _ => handler
  end.

(** ** Python's [logging] library, as far as the module calls it

    [log.py] imports [logging]; the definitions below follow the library's
    own code ([Lib/logging/__init__.py]).  Left at their defaults, because
    nothing in [log.py] changes them, and therefore not modelled:
    [Logger.disabled], logger and handler filters, the [isEnabledFor]
    cache (cleared whenever a level is set) and [stack_info].  The handler
    of last resort writes to standard error and is left out as well. *)
Module logging.

Definition NOTSET : Z := 0.
Definition DEBUG : Z := 10.
Definition INFO : Z := 20.
Definition WARNING : Z := 30.
Definition ERROR : Z := 40.
Definition CRITICAL : Z := 50.

Definition _levelToName : list (Z * string) :=
  [ (CRITICAL, "CRITICAL"); (ERROR, "ERROR"); (WARNING, "WARNING");
    (INFO, "INFO"); (DEBUG, "DEBUG"); (NOTSET, "NOTSET") ].

Definition _nameToLevel : list (string * Z) :=
  [ ("CRITICAL", CRITICAL); ("FATAL", CRITICAL); ("ERROR", ERROR);
    ("WARN", WARNING); ("WARNING", WARNING); ("INFO", INFO);
    ("DEBUG", DEBUG); ("NOTSET", NOTSET) ].

Fixpoint assoc_Z {A} (k : Z) (l : list (Z * A)) : option A :=
  match l with
  | [] => None
  | (k', a) :: l' => if k =? k' then Some a else assoc_Z k l'
  end.

Fixpoint assoc_str {A} (k : string) (l : list (string * A)) : option A :=
  match l with
  | [] => None
  | (k', a) :: l' => if String.eqb k k' then Some a else assoc_str k l'
  end.

(** [_levelToName.get(level)] *)
Definition levelToName_get (level : value) : option string :=
  match as_int_key level with
  | Some z => assoc_Z z _levelToName
  | None => None
  end.

(** [_nameToLevel.get(level)] *)
Definition nameToLevel_get (level : value) : option Z :=
  match level with
  | VStr s => assoc_str s _nameToLevel
  | _ => None
  end.

(** [logging.getLevelName]: a known number gives its name, a known name
    gives its number, anything else the string ["Level %s" % level]. *)
Definition getLevelName (level : value) : value :=
  match levelToName_get level with
  | Some n => VStr n
  | None =>
      match nameToLevel_get level with
      | Some z => VInt z
      | None => VStr ("Level " +:+ py_str level)
      end
  end.

(** [logging._checkLevel] *)
Definition _checkLevel (level : value) : py_result Z :=
  match level with
  | VInt z => Ok z
  | VBool b => Ok (if b then 1 else 0)
  | VStr s =>
      match assoc_str s _nameToLevel with
      | Some z => Ok z
      | None => Raise ValueError
      end
  | VNone => Raise TypeError
  end.

(** A reference to a logger object: the root logger or the registry
    entry of that name. *)
Inductive LoggerRef : Type :=
  | Root
  | Named (n : string).

(** [Logger(name)]: level [NOTSET], propagating, no handlers. *)
Definition new_logger : Logger :=
  {| logger_level := NOTSET; propagate := true; handlers := [] |}.

Definition deref (r : LoggerRef) (s : State) : Logger :=
  match r with
  | Root => root s
  | Named n => default new_logger (loggerDict s !! n)
  end.

Definition update (r : LoggerRef) (f : Logger -> Logger) (s : State) : State :=
  match r with
  | Root => set_root (f (root s)) s
  | Named n => set_loggerDict (<[n := f (deref r s)]> (loggerDict s)) s
  end.

(** [logger.name] *)
Definition name_of (r : LoggerRef) : string :=
  match r with
  | Root => "root"
  | Named n => n
  end.

(** [logging.getLogger(name)]: no name (or, since Python 3.9, the root's
    own name) is the root logger; otherwise [Manager.getLogger], which wants a str and
    gets or creates the registry entry. *)
Definition getLogger (name : value) : M LoggerRef :=
  if negb (truthy name) || bool_decide (name = VStr "root") then ret Root
  else
    match name with
    | VStr n =>
        fun s =>
          match loggerDict s !! n with
          | Some _ => (Ok (Named n), s)
          | None =>
              (Ok (Named n),
               set_loggerDict (<[n := new_logger]> (loggerDict s)) s)
          end
    | _ => raise TypeError
    end.

(** [Logger.setLevel] *)
Definition setLevel (r : LoggerRef) (level : value) : M unit :=
  let* z := lift (_checkLevel level) in
  modify (update r (fun l =>
    {| logger_level := z; propagate := propagate l;
       handlers := handlers l |})).

(** [logger.propagate = b] *)
Definition set_propagate (r : LoggerRef) (b : bool) : M unit :=
  modify (update r (fun l =>
    {| logger_level := logger_level l; propagate := b;
       handlers := handlers l |})).

(** [Logger.addHandler]: [if not (hdlr in self.handlers): append]. *)
Definition addHandler (r : LoggerRef) (hdlr : Handler) : M unit :=
  modify (update r (fun l =>
    if bool_decide (hdlr ∈ handlers l) then l
    else {| logger_level := logger_level l; propagate := propagate l;
            handlers := handlers l ++ [hdlr] |})).

(** *** The logger hierarchy

    The library keeps a [parent] pointer in every logger; here it is read
    off the registry: the nearest registered ancestor on the walk that
    [Manager._fixupParents] makes over the dotted prefixes of the name,
    and the root logger when there is none.  [loggerDict] holds the
    [Logger] entries of the library's dictionary only: the [PlaceHolder]
    entries that the walk leaves under the unregistered prefixes are not
    kept, a name without a [Logger] has no entry. *)

(** [name.rfind(".", 0, hi)] *)
Fixpoint rfind_dot (name : string) (hi : nat) : option nat :=
  match hi with
  | O => None
  | S i =>
      match String.get i name with
      | Some c => if Ascii.eqb c "." then Some i else rfind_dot name i
      | None => rfind_dot name i
      end
  end.

(** The loop of [_fixupParents]: [while i > 0: substr = name[:i]; ...;
    i = name.rfind(".", 0, i - 1)]. *)
Fixpoint prefixes_from (fuel : nat) (name : string) (i : option nat)
    : list string :=
  match fuel, i with
  | S fuel', Some (S i') =>
      substring 0 (S i') name
        :: prefixes_from fuel' name (rfind_dot name i')
  | _, _ => []
  end.

Definition dotted_prefixes (name : string) : list string :=
  prefixes_from (String.length name) name
    (rfind_dot name (String.length name)).

Fixpoint first_registered (d : gmap string Logger) (names : list string)
    : LoggerRef :=
  match names with
  | [] => Root
  | n :: rest =>
      match d !! n with
      | Some _ => Named n
      | None => first_registered d rest
      end
  end.

(** [logger.parent]; the root logger has none. *)
Definition parent (s : State) (r : LoggerRef) : option LoggerRef :=
  match r with
  | Root => None
  | Named n => Some (first_registered (loggerDict s) (dotted_prefixes n))
  end.

(** An upper bound on the number of [parent] steps from a logger up to
    the root: every step shortens the name. *)
Definition depth_bound (r : LoggerRef) : nat :=
  match r with
  | Root => 0
  | Named n => S (String.length n)
  end.

(** [Logger.getEffectiveLevel]: the first non-zero level on the way up,
    [NOTSET] when there is none. *)
Fixpoint effective_level_from (fuel : nat) (s : State) (r : LoggerRef) : Z :=
  if negb (logger_level (deref r s) =? 0) then logger_level (deref r s)
  else
    match parent s r, fuel with
    | Some p, S fuel' => effective_level_from fuel' s p
    | _, _ => NOTSET
    end.

Definition getEffectiveLevel (r : LoggerRef) (s : State) : Z :=
  effective_level_from (depth_bound r) s r.

(** [Logger.isEnabledFor]: [Manager.disable], left at 0, switches off the
    levels up to 0; any other level is compared with the effective one. *)
Definition isEnabledFor (r : LoggerRef) (lvl : Z) (s : State) : bool :=
  if lvl <=? 0 then false else getEffectiveLevel r s <=? lvl.

(** [Logger.callHandlers]: every handler of the logger whose level admits
    the record, then the same at the parent while [propagate] is set. *)
Fixpoint callHandlers_from (fuel : nat) (s : State) (r : LoggerRef)
    (record : LogRecord) : list (Handler * LogRecord) :=
  let here :=
    (fun h => (h, record)) <$>
      filter (fun h => h_level h <= levelno record) (handlers (deref r s)) in
  if propagate (deref r s) then
    match parent s r, fuel with
    | Some p, S fuel' => here ++ callHandlers_from fuel' s p record
    | _, _ => here
    end
  else here.

Definition callHandlers (r : LoggerRef) (record : LogRecord) : M unit :=
  fun s => (Ok tt, add_emitted (callHandlers_from (depth_bound r) s r record) s).

(** What a logging call sees of the process around it. *)
Record Moment : Type := {
  now : string;          (* the creation time, to the second *)
  now_msecs : Z;         (* its millisecond part *)
  getpid : Z;            (* os.getpid() *)
  exc_info_text : string (* sys.exc_info(), as formatException prints it *)
}.

(** [Logger.makeRecord] *)
Definition makeRecord (r : LoggerRef) (lvl : Z) (msg : string)
    (exc_info : bool) (t : Moment) : LogRecord :=
  {| name := name_of r;
     levelno := lvl;
     levelname := py_str (getLevelName (VInt lvl));
     process := getpid t;
     created := now t;
     msecs := now_msecs t;
     message := msg;
     exc_text := if exc_info then Some (exc_info_text t) else None |}.

(** [Logger._log] followed by [Logger.handle] *)
Definition Logger__log (r : LoggerRef) (lvl : Z) (msg : string)
    (exc_info : bool) (t : Moment) : M unit :=
  callHandlers r (makeRecord r lvl msg exc_info t).

Definition log_if_enabled (r : LoggerRef) (lvl : Z) (msg : string)
    (exc_info : bool) (t : Moment) : M unit :=
  let* enabled := gets (isEnabledFor r lvl) in
  if (enabled : bool) then Logger__log r lvl msg exc_info t else ret tt.

(** The methods of [logging.Logger] that [LOG] copies. *)
Definition Logger_debug (r : LoggerRef) (msg : string) (t : Moment) : M unit :=
  log_if_enabled r DEBUG msg false t.

Definition Logger_info (r : LoggerRef) (msg : string) (t : Moment) : M unit :=
  log_if_enabled r INFO msg false t.

Definition Logger_warning (r : LoggerRef) (msg : string) (t : Moment) : M unit :=
  log_if_enabled r WARNING msg false t.

Definition Logger_error (r : LoggerRef) (msg : string) (t : Moment) : M unit :=
  log_if_enabled r ERROR msg false t.

(** [Logger.exception] is [Logger.error] with [exc_info=True]. *)
Definition Logger_exception (r : LoggerRef) (msg : string) (t : Moment) : M unit :=
  log_if_enabled r ERROR msg true t.

(** A fresh interpreter: the root logger is created at level [WARNING]. *)
Definition initial_root : Logger :=
  {| logger_level := WARNING; propagate := true; handlers := [] |}.

End logging.

(** ** Python's [inspect] library, as far as the module calls it *)
Module inspect.

Record PyModule : Type := { __name__ : string }.

(** A frame object; [f_module] is what [inspect.getmodule] finds for it:
    a module, no module, or an exception. *)
Record Frame : Type := { f_module : py_result (option PyModule) }.

(** An entry of [inspect.stack()]: [record[0]], [record[1]],
    [record[2]], [record[3]]. *)
Record FrameInfo : Type := {
  frame : Frame;
  filename : string;
  lineno : Z;
  function : string
}.

Definition getmodule (f : Frame) : py_result (option PyModule) := f_module f.

End inspect.

(** ** [class LOG] *)
Module LOG.
Import logging inspect.

(** Where a logging call is made from: what [inspect.stack()] answers
    when [_log] calls it (entry 0 is [_log] itself, entry 1 the copied
    method, entry 2 the caller), and the moment of the call. *)
Record Site : Type := {
  inspect_stack : py_result (list FrameInfo);
  moment : Moment
}.

Definition log_message_format : string :=
  "{asctime} | {levelname:8} | {process:5} | {name} | {message}".

(** [formatter.default_msec_format = '%s.%03d'] *)
Definition default_msec_format (t : string) (ms : Z) : string :=
  t +:+ "." +:+ pct_03d ms.

(** [Formatter.formatTime] *)
Definition formatTime (r : LogRecord) : string :=
  default_msec_format (created r) (msecs r).

(** [record.__dict__], once [Formatter.format] has set [asctime]. *)
Definition record_dict (r : LogRecord) (key : string) : option fval :=
  if String.eqb key "asctime" then Some (FStr (formatTime r))
  else if String.eqb key "levelname" then Some (FStr (levelname r))
  else if String.eqb key "levelno" then Some (FInt (levelno r))
  else if String.eqb key "process" then Some (FInt (process r))
  else if String.eqb key "name" then Some (FStr (name r))
  else if String.eqb key "message" then Some (FStr (message r))
  else None.

(** [Formatter.formatMessage] with [style='{']:
    the template's [format] applied to the record's attributes. *)
Definition formatMessage (r : LogRecord) : option string :=
  py_format (record_dict r) InText log_message_format.

Definition LF : ascii := ascii_of_nat 10.

Fixpoint ends_with (c : ascii) (s : string) : bool :=
  match s with
  | EmptyString => false
  | String c' EmptyString => Ascii.eqb c' c
  | String _ rest => ends_with c rest
  end.

(** [Formatter.format]: the rendered template, then the traceback text
    of the record on lines of its own. *)
Definition format (r : LogRecord) : option string :=
  s ← formatMessage r;
  Some (match exc_text r with
        | Some e =>
            if String.eqb e "" then s
            else (if ends_with LF s then s else snoc_char s LF) +:+ e
        | None => s
        end).

(** [handler = logging.StreamHandler(sys.stdout)], with [formatter]. *)
Definition handler : Handler := {| h_id := 0; h_level := NOTSET |}.

(** What [handler] has written to standard output, one entry per record
    (the stream handler ends each with a newline; a record that fails to
    format writes nothing). *)
Definition stdout (s : State) : list string :=
  omap (fun e : Handler * LogRecord =>
          if bool_decide (e.1 = handler) then format e.2 else None)
       (emitted s).

(** [LOG.create_logger] *)
Definition create_logger (name : value) : M LoggerRef :=
  let* logger := getLogger name in
  do* set_propagate logger false in
  do* addHandler logger handler in
  ret logger.

(** [LOG.init]; [config] is what [Configuration.get()] returned. *)
Definition init (config : gmap string value) : M unit :=
  do* modify (set_level
        (getLevelName
           (py_or (default (VStr "INFO") (config !! "log_level"))
                  (VStr "INFO")))) in
  let* logger := create_logger (VStr "") in
  let* lvl := gets level in
  setLevel logger lvl.

(** [LOG.__init__] *)
Definition __init__ (name : value) : M unit :=
  modify (set__custom_name name).

(** The body of the [try] in [_log]. *)
Definition caller_name (site : Site) : py_result string :=
  match inspect_stack site with
  | Raise e => Raise e
  | Ok stack =>
      match stack !! 2%nat with
      | None => Raise IndexError
      | Some record =>
          match getmodule (frame record) with
          | Raise e => Raise e
          | Ok mod_ =>
              let module_name :=
                match mod_ with
                | Some m => __name__ m
                | None => ""
                end in
              Ok (module_name +:+ ":" +:+ function record +:+ ":"
                    +:+ str_int (lineno record))
          end
      end
  end.

(** The first half of [_log]: the name handed to [create_logger]. *)
Definition resolve_name (site : Site) : M value :=
  let* custom := gets _custom_name in
  if bool_decide (custom ≠ VNone) then
    do* modify (set__custom_name VNone) in
    ret custom
  else
    ret (VStr (try_except (caller_name site) "HolmesV")).

(** [LOG._log].  [msg] stands for the positional and keyword arguments of
    the call: the message after [record.getMessage()] has substituted
    them. *)
Definition _log (func : LoggerRef -> string -> Moment -> M unit)
    (site : Site) (msg : string) : M unit :=
  let* name := resolve_name site in
  let* logger := create_logger name in
  func logger msg (moment site).

Definition _make_log_method (fn : LoggerRef -> string -> Moment -> M unit)
    : Site -> string -> M unit :=
  fun site msg => _log fn site msg.

Definition debug := _make_log_method Logger_debug.
Definition info := _make_log_method Logger_info.
Definition warning := _make_log_method Logger_warning.
Definition error := _make_log_method Logger_error.
Definition exception := _make_log_method Logger_exception.

(** The class at import time, in a fresh interpreter. *)
Definition initial : State :=
  {| _custom_name := VNone;
     level := getLevelName (VStr "INFO");
     root := initial_root;
     loggerDict := ∅;
     emitted := [] |}.

End LOG.

(** ** Sequences of facade calls *)

Inductive severity : Type := Debug | Info | Warning | Error | Exception.

Definition severity_call (sev : severity) : LOG.Site -> string -> M unit :=
  match sev with
  | Debug => LOG.debug
  | Info => LOG.info
  | Warning => LOG.warning
  | Error => LOG.error
  | Exception => LOG.exception
  end.

(** The level each copied method logs at. *)
Definition severity_level (sev : severity) : Z :=
  match sev with
  | Debug => logging.DEBUG
  | Info => logging.INFO
  | Warning => logging.WARNING
  | Error | Exception => logging.ERROR
  end.

Definition severity_exc_info (sev : severity) : bool :=
  match sev with
  | Exception => true
  | _ => false
  end.

(** One use of the public surface. *)
Inductive op : Type :=
  | OpInit (config : gmap string value)
  | OpNamed (name : value)
  | OpCall (sev : severity) (site : LOG.Site) (msg : string).

Definition run_op (o : op) : M unit :=
  match o with
  | OpInit config => LOG.init config
  | OpNamed n => LOG.__init__ n
  | OpCall sev site msg => severity_call sev site msg
  end.

(** The state after an operation, whether it returned or raised. *)
Definition exec (o : op) (s : State) : State := (run_op o s).2.

Definition exec_all (os : list op) (s : State) : State :=
  fold_left (fun s o => exec o s) os s.

Definition is_init (o : op) : bool :=
  match o with
  | OpInit _ => true
  | _ => false
  end.

(** States the facade can be in. *)
Inductive reachable : State -> Prop :=
  | reachable_initial : reachable LOG.initial
  | reachable_step o s : reachable s -> reachable (exec o s).


(** ** Auxiliary definitions for the statements *)

Import logging inspect LOG.

(** The copied method of each severity. *)
Definition logger_method (sev : severity)
    : LoggerRef -> string -> Moment -> M unit :=
  match sev with
  | Debug => Logger_debug
  | Info => Logger_info
  | Warning => Logger_warning
  | Error => Logger_error
  | Exception => Logger_exception
  end.

(** Line 128 of [log.py] for a resolved [name]:
    [func(cls.create_logger(name), ...)]. *)
Definition dispatch (sev : severity) (name : value) (site : Site)
    (msg : string) : M unit :=
  let* logger := create_logger name in
  logger_method sev logger msg (moment site).

(** The logger that [logging.getLogger(name)] answers with, if it accepts
    the name. *)
Definition target (name : value) : option LoggerRef :=
  if negb (truthy name) || bool_decide (name = VStr "root") then Some Root
  else
    match name with
    | VStr n => Some (Named n)
    | _ => None
    end.

(** What [create_logger] makes of the logger object it fetched: propagation
    off, the shared handler attached unless it is attached already. *)
Definition attach (l : Logger) : Logger :=
  {| logger_level := logger_level l;
     propagate := false;
     handlers :=
       if bool_decide (LOG.handler ∈ handlers l) then handlers l
       else handlers l ++ [LOG.handler] |}.

(** Sample call sites: a caller [myfunc] at line 42 of module [mymod], the
    same caller without a module, and a site whose stack cannot be
    inspected. *)
Definition sample_moment : Moment :=
  {| now := "2021-03-04 05:06:07"; now_msecs := 8; getpid := 1234;
     exc_info_text := "NoneType: None" |}.

Definition sample_record (m : option PyModule) (f : string) (line : Z)
    : FrameInfo :=
  {| frame := {| f_module := Ok m |}; filename := "file.py";
     lineno := line; function := f |}.

Definition sample_stack (caller : FrameInfo) : list FrameInfo :=
  [ sample_record (Some {| __name__ := "mycroft.util.log" |}) "_log" 112;
    sample_record (Some {| __name__ := "mycroft.util.log" |}) "method" 45;
    caller ].

Definition sample_site : Site :=
  {| inspect_stack :=
       Ok (sample_stack
             (sample_record (Some {| __name__ := "mymod" |}) "myfunc" 42));
     moment := sample_moment |}.

Definition moduleless_site : Site :=
  {| inspect_stack := Ok (sample_stack (sample_record None "<module>" 1));
     moment := sample_moment |}.

Definition failing_site : Site :=
  {| inspect_stack := Raise (OtherException "OSError");
     moment := sample_moment |}.

Definition warning_config : gmap string value :=
  {[ "log_level" := VStr "WARNING" ]}.

Definition debug_config : gmap string value :=
  {[ "log_level" := VStr "DEBUG" ]}.

(** The record a severity call makes on the logger [ref]. *)
Definition emission (sev : severity) (ref : LoggerRef) (site : Site)
    (msg : string) : LogRecord :=
  makeRecord ref (severity_level sev) msg (severity_exc_info sev) (moment site).

(** The loggers as the facade alone leaves them: every registered logger
    has no level of its own, does not propagate and carries the shared
    handler once; the root logger carries it at most once. *)
Definition facade_only (s : State) : Prop :=
  (forall n l, loggerDict s !! n = Some l ->
     logger_level l = NOTSET /\ propagate l = false
     /\ handlers l = [LOG.handler])
  /\ (handlers (root s) = [] \/ handlers (root s) = [LOG.handler]).

(** ** The module-level [getLogger] *)
Module log.

(** [def getLogger(name="MYCROFT")], deprecated: plain
    [logging.getLogger(name)].  [None] stands for a call without an
    argument. *)
Definition getLogger (name : option value) : M LoggerRef :=
  logging.getLogger (default (VStr "MYCROFT") name).

End log.

(** Whether a string contains a colon. *)
Fixpoint has_colon (x : string) : bool :=
  match x with
  | EmptyString => false
  | String c rest => Ascii.eqb c ":" || has_colon rest
  end.

(** Whether an operation is a severity call. *)
Definition is_call (o : op) : bool :=
  match o with
  | OpCall _ _ _ => true
  | _ => false
  end.


(** * Properties *)


Ltac unfold_monad :=
  unfold bind, ret, raise, modify, gets, lift in *.

(** ** Name resolution *)

Lemma severity_call_unfold sev site msg :
  severity_call sev site msg = _log (logger_method sev) site msg.
Proof. by destruct sev. Qed.

Lemma severity_call_dispatch sev site msg s name s' :
  resolve_name site s = (Ok name, s') ->
  severity_call sev site msg s = dispatch sev name site msg s'.
Proof.
  intros Hres. rewrite severity_call_unfold.
  unfold _log, dispatch, bind at 1. by rewrite Hres.
Qed.

Lemma resolve_name_unset site s :
  _custom_name s = VNone ->
  resolve_name site s
  = (Ok (VStr (try_except (caller_name site) "HolmesV")), s).
Proof.
  intros Hnone. unfold resolve_name. unfold_monad. by rewrite Hnone.
Qed.

Lemma resolve_name_set site s :
  _custom_name s ≠ VNone ->
  resolve_name site s = (Ok (_custom_name s), set__custom_name VNone s).
Proof.
  intros Hset. unfold resolve_name. unfold_monad.
  by rewrite bool_decide_eq_true_2.
Qed.

(** C1.  A severity call made while no custom name is set, whose stack
    inspection yields the caller's frame record (entry 2 of
    [inspect.stack()], two above [_log]) and completes the module lookup,
    hands [create_logger] the name made of the caller's module name (empty
    when the frame has no module), a colon, the caller's function name, a
    colon, and the caller's line number. *)
Theorem plain_call_name_is_module_function_line
    sev site msg s stack record m :
  _custom_name s = VNone ->
  inspect_stack site = Ok stack ->
  stack !! 2%nat = Some record ->
  getmodule (frame record) = Ok m ->
  let module_name := match m with Some md => __name__ md | None => "" end in
  let name :=
    VStr (module_name +:+ ":" +:+ function record +:+ ":"
            +:+ str_int (lineno record)) in
  resolve_name site s = (Ok name, s)
  /\ severity_call sev site msg s = dispatch sev name site msg s.
Proof.
  intros Hnone Hstack Hrec Hmod module_name name.
  assert (Hres : resolve_name site s = (Ok name, s)).
  { rewrite resolve_name_unset by done.
    unfold caller_name. by rewrite Hstack, Hrec, Hmod. }
  split; [exact Hres |]. by apply severity_call_dispatch.
Qed.

(** C9.  When the stack walk succeeds but [inspect.getmodule] finds no
    module for the caller's frame, the module component is empty: the name
    is a colon, the function name, a colon and the line number, and it is
    not the fallback name. *)
Theorem moduleless_caller_name_has_empty_module
    sev site msg s stack record :
  _custom_name s = VNone ->
  inspect_stack site = Ok stack ->
  stack !! 2%nat = Some record ->
  getmodule (frame record) = Ok None ->
  let name :=
    VStr (":" +:+ function record +:+ ":" +:+ str_int (lineno record)) in
  resolve_name site s = (Ok name, s)
  /\ severity_call sev site msg s = dispatch sev name site msg s
  /\ name ≠ VStr "HolmesV".
Proof.
  intros Hnone Hstack Hrec Hmod name.
  assert (Hres : resolve_name site s = (Ok name, s)).
  { rewrite resolve_name_unset by done.
    unfold caller_name. by rewrite Hstack, Hrec, Hmod. }
  split; [exact Hres |]. split; [by apply severity_call_dispatch |].
  discriminate.
Qed.

(** C10.  [LOG(None)] leaves the override unset, whatever it was before:
    the next logging call resolves its name from the stack (or falls back
    to the fixed name), never to [None]. *)
Theorem none_name_leaves_override_unset sev site msg s :
  let s0 := exec (OpNamed VNone) s in
  let name := VStr (try_except (caller_name site) "HolmesV") in
  _custom_name s0 = VNone
  /\ resolve_name site s0 = (Ok name, s0)
  /\ severity_call sev site msg s0 = dispatch sev name site msg s0.
Proof.
  intros s0 name.
  assert (Hnone : _custom_name s0 = VNone) by reflexivity.
  split; [exact Hnone |].
  split; [by apply resolve_name_unset |].
  apply severity_call_dispatch. by apply resolve_name_unset.
Qed.

(** ** Logger acquisition *)

Lemma getLogger_target name s :
  getLogger name s
  = match target name with
    | None => (Raise TypeError, s)
    | Some Root => (Ok Root, s)
    | Some (Named n) =>
        (Ok (Named n),
         match loggerDict s !! n with
         | Some _ => s
         | None => set_loggerDict (<[n := new_logger]> (loggerDict s)) s
         end)
    end.
Proof.
  unfold getLogger, target.
  destruct (negb (truthy name) || bool_decide (name = VStr "root")); [done |].
  destruct name; try done.
  by destruct (loggerDict s !! s0).
Qed.

Lemma create_logger_eq name s :
  create_logger name s
  = match target name with
    | None => (Raise TypeError, s)
    | Some Root => (Ok Root, set_root (attach (root s)) s)
    | Some (Named n) =>
        (Ok (Named n),
         set_loggerDict
           (<[n := attach (default new_logger (loggerDict s !! n))]>
              (loggerDict s)) s)
    end.
Proof.
  unfold create_logger, bind at 1. rewrite getLogger_target.
  destruct (target name) as [[|n]|]; [| | done].
  - unfold set_propagate, addHandler, attach. unfold_monad. simpl.
    unfold set_root. simpl. do 2 f_equal.
    by destruct (bool_decide (LOG.handler ∈ handlers (root s))).
  - unfold set_propagate, addHandler, attach. unfold_monad.
    destruct (loggerDict s !! n) as [l|] eqn:Hl; simpl;
      unfold set_loggerDict; simpl; rewrite ?Hl; simpl;
      rewrite !lookup_insert_eq; simpl; rewrite !insert_insert_eq;
      do 3 f_equal;
      by repeat match goal with
                | |- context [bool_decide ?P] => destruct (bool_decide P)
                end.
Qed.

Lemma attach_idempotent l : attach (attach l) = attach l.
Proof.
  unfold attach. simpl.
  destruct (bool_decide (LOG.handler ∈ handlers l)) eqn:Hin; simpl.
  - by rewrite Hin.
  - rewrite bool_decide_eq_true_2; [done |]. set_solver.
Qed.

Lemma deref_create_logger name s ref s' :
  create_logger name s = (Ok ref, s') ->
  target name = Some ref /\ deref ref s' = attach (deref ref s).
Proof.
  rewrite create_logger_eq.
  destruct (target name) as [[|n]|]; intros Heq; simplify_eq; [done |].
  split; [done |]. simpl. by rewrite lookup_insert_eq.
Qed.

(** C7, on the code at a concrete input: the second acquisition of a name
    does not add a second copy of the shared handler. *)
Lemma second_acquisition_adds_no_handler :
  handlers
    (deref (Named "skill")
       (create_logger (VStr "skill") LOG.initial).2)
  = [LOG.handler]
  /\ handlers
       (deref (Named "skill")
          (create_logger (VStr "skill")
             (create_logger (VStr "skill") LOG.initial).2).2)
     = [LOG.handler].
Proof. split; vm_compute; reflexivity. Qed.

(** C7, as the code has it.  [create_logger] fetches or creates the logger
    of exactly the given name, turns its propagation off and hands the
    shared handler to [addHandler] without a check of its own; [addHandler]
    skips a handler that is attached already, so the handler list grows
    only on the first acquisition and acquiring the same name again
    changes nothing.  The loggers of other names are left as they were. *)
Theorem create_logger_attaches_handler_once name s ref s' :
  create_logger name s = (Ok ref, s') ->
  target name = Some ref
  /\ propagate (deref ref s') = false
  /\ handlers (deref ref s')
     = (if bool_decide (LOG.handler ∈ handlers (deref ref s))
        then handlers (deref ref s)
        else (handlers (deref ref s) ++ [LOG.handler])%list)
  /\ (forall n, ref = Named n ->
        is_Some (loggerDict s' !! n)
        /\ forall n', n' ≠ n -> loggerDict s' !! n' = loggerDict s !! n')
  /\ create_logger name s' = (Ok ref, s').
Proof.
  intros Hc. destruct (deref_create_logger _ _ _ _ Hc) as [Ht Hd].
  rewrite Hd. split; [done |]. split; [done |]. split; [done |].
  split.
  { intros n ->. revert Hc. rewrite create_logger_eq, Ht.
    intros Heq. simplify_eq. cbn [loggerDict set_loggerDict].
    split; [by rewrite lookup_insert_eq |].
    intros n' Hn'. by rewrite lookup_insert_ne. }
  revert Hc. rewrite !create_logger_eq, Ht.
  destruct ref as [|n]; intros Heq; simplify_eq; simpl.
  - unfold set_root. simpl. by rewrite attach_idempotent.
  - unfold set_loggerDict. simpl.
    by rewrite lookup_insert_eq, insert_insert_eq; simpl;
       rewrite attach_idempotent.
Qed.

Lemma create_logger_attaches_handler_once_witness :
  create_logger (VStr "skill") LOG.initial
  = (Ok (Named "skill"), (create_logger (VStr "skill") LOG.initial).2)
  /\ propagate
       (deref (Named "skill") (create_logger (VStr "skill") LOG.initial).2)
     = false.
Proof.
  assert (H : create_logger (VStr "skill") LOG.initial
              = (Ok (Named "skill"),
                 (create_logger (VStr "skill") LOG.initial).2)).
  { rewrite create_logger_eq. reflexivity. }
  split; [exact H |].
  exact (proj1 (proj2 (create_logger_attaches_handler_once _ _ _ _ H))).
Defined.

(** ** The one-shot name *)

Lemma log_if_enabled_eq r lvl msg exc t s :
  log_if_enabled r lvl msg exc t s
  = (Ok tt,
     if isEnabledFor r lvl s
     then add_emitted
            (callHandlers_from (depth_bound r) s r (makeRecord r lvl msg exc t)) s
     else s).
Proof.
  unfold log_if_enabled, Logger__log, callHandlers. unfold_monad.
  by destruct (isEnabledFor r lvl s).
Qed.

Lemma logger_method_eq sev r msg t :
  logger_method sev r msg t
  = log_if_enabled r (severity_level sev) msg (severity_exc_info sev) t.
Proof. by destruct sev. Qed.

Lemma dispatch_keeps_custom_name sev name site msg s :
  _custom_name (dispatch sev name site msg s).2 = _custom_name s.
Proof.
  unfold dispatch, bind. rewrite create_logger_eq.
  destruct (target name) as [[|n]|]; [| | done];
    rewrite logger_method_eq, log_if_enabled_eq; simpl;
    by match goal with |- context [if ?b then _ else _] => destruct b end.
Qed.

Lemma severity_call_clears_custom_name sev site msg s :
  _custom_name (severity_call sev site msg s).2 = VNone.
Proof.
  destruct (decide (_custom_name s = VNone)) as [Hnone|Hset].
  - erewrite severity_call_dispatch by by apply resolve_name_unset.
    by rewrite dispatch_keeps_custom_name.
  - erewrite severity_call_dispatch by by apply resolve_name_set.
    by rewrite dispatch_keeps_custom_name.
Qed.

(** C2.  After [LOG(v)] with a name [v] other than [None], the next logging
    call reads [v] as the logger name and resets the override before it
    goes on; once that call is over (returned or raised) the override is
    unset, and the call after it resolves its name from the stack, not from
    [v].  The override is one class attribute, so at most one is live. *)
Theorem custom_name_is_consumed_by_next_call
    (v : value) sev1 site1 msg1 sev2 site2 msg2 s :
  v ≠ VNone ->
  let s0 := exec (OpNamed v) s in
  let s1 := exec (OpCall sev1 site1 msg1) s0 in
  _custom_name s0 = v
  /\ resolve_name site1 s0 = (Ok v, set__custom_name VNone s0)
  /\ severity_call sev1 site1 msg1 s0
     = dispatch sev1 v site1 msg1 (set__custom_name VNone s0)
  /\ _custom_name s1 = VNone
  /\ resolve_name site2 s1
     = (Ok (VStr (try_except (caller_name site2) "HolmesV")), s1)
  /\ severity_call sev2 site2 msg2 s1
     = dispatch sev2 (VStr (try_except (caller_name site2) "HolmesV"))
         site2 msg2 s1.
Proof.
  intros Hv s0 s1.
  assert (H0 : _custom_name s0 = v) by reflexivity.
  assert (Hres : resolve_name site1 s0 = (Ok v, set__custom_name VNone s0)).
  { rewrite <- H0 at 1. apply resolve_name_set. by rewrite H0. }
  assert (H1 : _custom_name s1 = VNone)
    by apply severity_call_clears_custom_name.
  repeat split; try done.
  - by apply severity_call_dispatch.
  - by apply resolve_name_unset.
  - apply severity_call_dispatch. by apply resolve_name_unset.
Qed.

Lemma custom_name_is_consumed_by_next_call_witness :
  VStr "custom" ≠ VNone
  /\ resolve_name {| inspect_stack := Raise IndexError;
                     moment := {| now := ""; now_msecs := 0; getpid := 1;
                                  exc_info_text := "" |} |}
       (exec (OpNamed (VStr "custom")) LOG.initial)
     = (Ok (VStr "custom"),
        set__custom_name VNone (exec (OpNamed (VStr "custom")) LOG.initial)).
Proof.
  split; [discriminate |].
  refine (proj1 (proj2
    (custom_name_is_consumed_by_next_call (VStr "custom")
       Info _ "x" Info
       {| inspect_stack := Raise IndexError;
          moment := {| now := ""; now_msecs := 0; getpid := 1;
                       exc_info_text := "" |} |}
       "y" LOG.initial _))).
  discriminate.
Defined.

(** ** [init] *)

(** The value [init] hands to [getLevelName]:
    [config.get('log_level', 'INFO') or 'INFO']. *)
Lemma init_eq config s :
  let lvl :=
    getLevelName
      (py_or (default (VStr "INFO") (config !! "log_level")) (VStr "INFO")) in
  let s1 := set_root (attach (root s)) (set_level lvl s) in
  LOG.init config s
  = match _checkLevel lvl with
    | Ok z =>
        (Ok tt,
         set_root {| logger_level := z; propagate := false;
                     handlers := handlers (attach (root s)) |} s1)
    | Raise e => (Raise e, s1)
    end.
Proof.
  intros lvl s1. unfold LOG.init, bind at 1. unfold modify at 1.
  unfold bind at 1. rewrite create_logger_eq. simpl.
  unfold setLevel. unfold_monad. simpl. fold lvl.
  by destruct (_checkLevel lvl).
Qed.

(** C4.  With no [log_level] entry in the configuration, or with one that
    is falsy ([None], [False], [0], the empty string), [init] sets
    [LOG.level] to the number of ["INFO"] and puts that level on the root
    logger, which [getLogger("")] answers with. *)
Theorem init_defaults_to_info config s :
  config !! "log_level" = None
  \/ (exists v, config !! "log_level" = Some v /\ truthy v = false) ->
  exists s',
    LOG.init config s = (Ok tt, s')
    /\ level s' = VInt INFO
    /\ getLevelName (VStr "INFO") = VInt INFO
    /\ target (VStr "") = Some Root
    /\ logger_level (root s') = INFO
    /\ getEffectiveLevel Root s' = INFO.
Proof.
  intros Hcfg.
  assert (Hor : py_or (default (VStr "INFO") (config !! "log_level"))
                  (VStr "INFO") = VStr "INFO").
  { destruct Hcfg as [-> | (v & -> & Hv)]; [done |].
    simpl. unfold py_or. by rewrite Hv. }
  pose proof (init_eq config s) as Hinit. simpl in Hinit.
  rewrite Hor in Hinit. eexists. split; [exact Hinit |]. done.
Qed.

Lemma init_defaults_to_info_witness :
  exists s',
    LOG.init {[ "log_level" := VStr "" ]} LOG.initial = (Ok tt, s')
    /\ level s' = VInt INFO
    /\ getLevelName (VStr "INFO") = VInt INFO
    /\ target (VStr "") = Some Root
    /\ logger_level (root s') = INFO
    /\ getEffectiveLevel Root s' = INFO.
Proof.
  apply init_defaults_to_info. right. exists (VStr ""). split; reflexivity.
Defined.

Lemma level_prefix_is_no_level_name n :
  assoc_str ("Level " +:+ n) _nameToLevel = None.
Proof. reflexivity. Qed.

(** C8, on the code at a concrete input: a level name the library does not
    know makes [getLevelName] answer with a string, not a number, and
    [init] raise. *)
Lemma init_with_unknown_level_raises :
  getLevelName (VStr "VERBOSE") = VStr "Level VERBOSE"
  /\ (LOG.init {[ "log_level" := VStr "VERBOSE" ]} LOG.initial).1
     = Raise ValueError.
Proof. split; vm_compute; reflexivity. Qed.

(** C8, as the code has it.  For a non-empty level name that the library
    does not know, [getLevelName] does not fail but answers with the
    string ["Level " + name]; [init] stores that string in [LOG.level],
    and [setLevel] on the root logger then rejects it with [ValueError],
    which [init] lets through.  The root logger keeps the level it had. *)
Theorem init_with_unknown_level_name_raises config n s :
  config !! "log_level" = Some (VStr n) ->
  n ≠ "" ->
  nameToLevel_get (VStr n) = None ->
  getLevelName (VStr n) = VStr ("Level " +:+ n)
  /\ exists s',
       LOG.init config s = (Raise ValueError, s')
       /\ level s' = VStr ("Level " +:+ n)
       /\ logger_level (root s') = logger_level (root s).
Proof.
  intros Hcfg Hn Hunknown.
  assert (Hname : getLevelName (VStr n) = VStr ("Level " +:+ n)).
  { unfold getLevelName. simpl levelToName_get. by rewrite Hunknown. }
  split; [exact Hname |].
  assert (Hor : py_or (default (VStr "INFO") (config !! "log_level"))
                  (VStr "INFO") = VStr n).
  { rewrite Hcfg. simpl. unfold py_or. simpl. by destruct n. }
  pose proof (init_eq config s) as Hinit. simpl in Hinit.
  rewrite Hor, Hname in Hinit.
  unfold _checkLevel in Hinit.
  rewrite level_prefix_is_no_level_name in Hinit.
  eexists. split; [exact Hinit |]. done.
Qed.

Lemma init_with_unknown_level_name_raises_witness :
  getLevelName (VStr "TRACE") = VStr "Level TRACE"
  /\ exists s',
       LOG.init {[ "log_level" := VStr "TRACE" ]} LOG.initial
       = (Raise ValueError, s')
       /\ level s' = VStr "Level TRACE"
       /\ logger_level (root s') = logger_level (root LOG.initial).
Proof.
  apply (init_with_unknown_level_name_raises _ "TRACE");
    [reflexivity | discriminate | reflexivity].
Defined.

(** ** The output format *)


Lemma length_zeros n : String.length (zeros n) = n.
Proof. induction n; simpl; congruence. Qed.




Lemma append_empty_r (a : string) : a +:+ "" = a.
Proof.
  induction a as [|c a IH]; [done |].
  change (String c (a +:+ "") = String c a). by rewrite IH.
Qed.

Lemma formatMessage_eq r :
  formatMessage r
  = Some (formatTime r +:+ " | " +:+ ljust 8 (levelname r) +:+ " | "
            +:+ rjust 5 (str_int (process r)) +:+ " | " +:+ name r
            +:+ " | " +:+ message r).
Proof.
  rewrite <- (append_empty_r (message r)).
  vm_compute. reflexivity.
Qed.






(** ** The hierarchy walk ends *)

Lemma rfind_dot_lt name hi i : rfind_dot name hi = Some i -> (i < hi)%nat.
Proof.
  induction hi as [|hi IH]; simpl; [done |].
  destruct (String.get hi name) as [c|].
  - destruct (Ascii.eqb c "."); [intros [= <-]; lia |].
    intros H. apply IH in H. lia.
  - intros H. apply IH in H. lia.
Qed.

Lemma length_substring_0 k (x : string) :
  (k <= String.length x)%nat -> String.length (substring 0 k x) = k.
Proof.
  revert x. induction k as [|k IH]; intros [|c x]; simpl; try done; try lia.
  intros Hk. f_equal. apply IH. lia.
Qed.

Lemma prefixes_from_shorter fuel name i q :
  (forall k, i = Some k -> (k < String.length name)%nat) ->
  q ∈ prefixes_from fuel name i ->
  (String.length q < String.length name)%nat.
Proof.
  revert i. induction fuel as [|fuel IH]; intros i Hi; simpl.
  - destruct i; intros Hq; by apply elem_of_nil in Hq.
  - destruct i as [[|i']|]; try (intros Hq; by apply elem_of_nil in Hq).
    specialize (Hi _ eq_refl).
    rewrite elem_of_cons. intros [-> | Hq].
    + rewrite length_substring_0; lia.
    + apply (IH (rfind_dot name i')); [| done].
      intros k Hk. apply rfind_dot_lt in Hk. lia.
Qed.

Lemma dotted_prefixes_shorter name q :
  q ∈ dotted_prefixes name -> (String.length q < String.length name)%nat.
Proof.
  apply prefixes_from_shorter. intros k Hk. by apply rfind_dot_lt in Hk.
Qed.

Lemma first_registered_cases (d : gmap string Logger) names :
  first_registered d names = Root
  \/ exists q, first_registered d names = Named q /\ q ∈ names.
Proof.
  induction names as [|n names IH]; simpl; [by left |].
  destruct (d !! n).
  - right. exists n. split; [done | apply elem_of_cons; by left].
  - destruct IH as [-> | (q & -> & Hq)]; [by left |].
    right. exists q. split; [done | apply elem_of_cons; by right].
Qed.

Lemma parent_depth s r p :
  parent s r = Some p -> (depth_bound p < depth_bound r)%nat.
Proof.
  destruct r as [|n]; simpl; [done |]. intros [= <-].
  destruct (first_registered_cases (loggerDict s) (dotted_prefixes n))
    as [-> | (q & -> & Hq)]; simpl; [lia |].
  apply dotted_prefixes_shorter in Hq. lia.
Qed.

(** ** Loggers that only the facade has touched *)

Lemma facade_only_level s r :
  facade_only s -> r ≠ Root -> logger_level (deref r s) = NOTSET.
Proof.
  intros [Hreg _] Hr. destruct r as [|n]; [done |]. simpl.
  destruct (loggerDict s !! n) as [l|] eqn:Hl; [| done].
  by destruct (Hreg _ _ Hl).
Qed.

(** With enough fuel for the walk, the effective level of every logger is
    the level of the root logger. *)
Lemma effective_level_is_root_level s :
  facade_only s ->
  forall fuel r,
    (depth_bound r <= fuel)%nat ->
    effective_level_from fuel s r = logger_level (root s).
Proof.
  intros Hs. induction fuel as [|fuel IH]; intros r Hfuel.
  - destruct r as [|n]; [| simpl in Hfuel; lia].
    simpl. destruct (logger_level (root s) =? 0) eqn:H0; simpl; [| done].
    apply Z.eqb_eq in H0. by rewrite H0.
  - destruct r as [|n].
    + simpl. destruct (logger_level (root s) =? 0) eqn:H0; simpl; [| done].
      apply Z.eqb_eq in H0. by rewrite H0.
    + change (effective_level_from (S fuel) s (Named n))
        with (if negb (logger_level (deref (Named n) s) =? 0)
              then logger_level (deref (Named n) s)
              else match parent s (Named n) with
                   | Some p => effective_level_from fuel s p
                   | None => NOTSET
                   end).
      rewrite facade_only_level by done. simpl negb. cbv iota.
      destruct (parent s (Named n)) as [p|] eqn:Hp; [| done].
      apply IH. apply parent_depth in Hp. lia.
Qed.

Lemma getEffectiveLevel_facade_only s r :
  facade_only s -> getEffectiveLevel r s = logger_level (root s).
Proof.
  intros Hs. by apply effective_level_is_root_level.
Qed.

Lemma callHandlers_from_no_propagate fuel s r record :
  propagate (deref r s) = false ->
  callHandlers_from fuel s r record
  = (fun h => (h, record)) <$>
      filter (fun h => h_level h <= levelno record) (handlers (deref r s)).
Proof. intros Hp. destruct fuel; simpl; by rewrite Hp. Qed.

Lemma attach_fresh_or_attached l :
  handlers l = [] \/ handlers l = [LOG.handler] ->
  handlers (attach l) = [LOG.handler].
Proof.
  unfold attach. simpl. intros [-> | ->].
  - by rewrite bool_decide_eq_false_2 by set_solver.
  - by rewrite bool_decide_eq_true_2 by set_solver.
Qed.

Lemma create_logger_facade_only name s :
  facade_only s ->
  facade_only (create_logger name s).2
  /\ logger_level (root (create_logger name s).2) = logger_level (root s)
  /\ emitted (create_logger name s).2 = emitted s
  /\ (forall ref,
        (create_logger name s).1 = Ok ref ->
        target name = Some ref
        /\ propagate (deref ref (create_logger name s).2) = false
        /\ handlers (deref ref (create_logger name s).2) = [LOG.handler]).
Proof.
  intros [Hreg Hroot]. rewrite create_logger_eq.
  destruct (target name) as [[|n]|]; simpl.
  - pose proof (attach_fresh_or_attached _ Hroot) as Hh.
    split; [split; [exact Hreg | by right] |].
    split; [done |]. split; [done |].
    intros ref Href. by simplify_eq.
  - assert (Hnew : logger_level
                     (attach (default new_logger (loggerDict s !! n)))
                   = NOTSET
                   /\ handlers
                        (attach (default new_logger (loggerDict s !! n)))
                      = [LOG.handler]).
    { destruct (loggerDict s !! n) as [l|] eqn:Hl; simpl.
      - destruct (Hreg _ _ Hl) as (? & _ & Hh). split; [done |].
        apply attach_fresh_or_attached. by right.
      - by split. }
    destruct Hnew as [Hlvl Hh].
    split.
    { split; [| exact Hroot].
      intros m l. cbn [loggerDict set_loggerDict]. rewrite lookup_insert.
      case_decide; [| by apply Hreg]. intros Heq. simplify_eq.
      by rewrite Hlvl, Hh. }
    split; [done |]. split; [done |].
    intros ref Href. simplify_eq. simpl. by rewrite lookup_insert_eq.
  - split; [by split |]. split; [done |]. split; [done |]. done.
Qed.


Lemma facade_only_add_emitted es s :
  facade_only s -> facade_only (add_emitted es s).
Proof. done. Qed.

Lemma facade_only_set__custom_name v s :
  facade_only s -> facade_only (set__custom_name v s).
Proof. done. Qed.

Lemma severity_level_nonneg sev : 0 <= severity_level sev.
Proof. destruct sev; vm_compute; discriminate. Qed.

Lemma severity_level_not_disabled sev : (severity_level sev <=? 0) = false.
Proof. by destruct sev. Qed.

(** A call under an accepted name, from a state only the facade has
    touched: it returns, and the shared handler gets the record exactly
    when the level of the call is at least the level of the root logger. *)
Lemma dispatch_facade_only sev name site msg s ref :
  facade_only s ->
  target name = Some ref ->
  dispatch sev name site msg s
  = (Ok tt,
     if logger_level (root s) <=? severity_level sev
     then add_emitted [(LOG.handler, emission sev ref site msg)]
            (create_logger name s).2
     else (create_logger name s).2).
Proof.
  intros Hs Ht.
  destruct (create_logger_facade_only name s Hs) as (Hs1 & Hroot & _ & Href).
  unfold dispatch, bind.
  destruct (create_logger name s) as [r s1] eqn:Hc. simpl in *.
  assert (r = Ok ref) as ->.
  { pose proof (create_logger_eq name s) as Heq. rewrite Hc, Ht in Heq.
    destruct ref; by simplify_eq. }
  destruct (Href ref eq_refl) as (_ & Hprop & Hh).
  rewrite logger_method_eq, log_if_enabled_eq.
  unfold isEnabledFor. rewrite severity_level_not_disabled.
  rewrite getEffectiveLevel_facade_only by done.
  rewrite Hroot. f_equal.
  destruct (logger_level (root s) <=? severity_level sev); [| done].
  rewrite callHandlers_from_no_propagate by done. rewrite Hh.
  rewrite filter_cons_True.
  - reflexivity.
  - simpl. apply severity_level_nonneg.
Qed.

Lemma dispatch_rejected sev name site msg s :
  target name = None ->
  dispatch sev name site msg s = (Raise TypeError, s).
Proof.
  intros Ht. unfold dispatch, bind. by rewrite create_logger_eq, Ht.
Qed.

Lemma dispatch_preserves sev name site msg s :
  facade_only s ->
  facade_only (dispatch sev name site msg s).2
  /\ logger_level (root (dispatch sev name site msg s).2)
     = logger_level (root s).
Proof.
  intros Hs.
  destruct (create_logger_facade_only name s Hs) as (Hs1 & Hroot & _ & _).
  destruct (target name) as [ref|] eqn:Ht.
  - rewrite (dispatch_facade_only _ _ _ _ _ ref) by done. simpl.
    by destruct (logger_level (root s) <=? severity_level sev).
  - by rewrite dispatch_rejected.
Qed.

Lemma severity_call_preserves sev site msg s :
  facade_only s ->
  facade_only (severity_call sev site msg s).2
  /\ logger_level (root (severity_call sev site msg s).2)
     = logger_level (root s).
Proof.
  intros Hs.
  destruct (decide (_custom_name s = VNone)) as [Hnone|Hset].
  - erewrite severity_call_dispatch by by apply resolve_name_unset.
    by apply dispatch_preserves.
  - erewrite severity_call_dispatch by by apply resolve_name_set.
    by apply (dispatch_preserves _ _ _ _ (set__custom_name VNone s)).
Qed.

Lemma init_preserves config s :
  facade_only s -> facade_only (LOG.init config s).2.
Proof.
  intros [Hreg Hroot]. pose proof (init_eq config s) as Hinit.
  simpl in Hinit. rewrite Hinit.
  pose proof (attach_fresh_or_attached _ Hroot) as Hh.
  match goal with |- context [_checkLevel ?v] => destruct (_checkLevel v) end;
    (split; [exact Hreg | by right]).
Qed.

Lemma exec_preserves o s : facade_only s -> facade_only (exec o s).
Proof.
  intros Hs. destruct o as [config | v | sev site msg]; unfold exec; simpl.
  - by apply init_preserves.
  - done.
  - by apply severity_call_preserves.
Qed.

Lemma exec_keeps_root_level o s :
  facade_only s -> is_init o = false ->
  logger_level (root (exec o s)) = logger_level (root s).
Proof.
  intros Hs Ho. destruct o as [config | v | sev site msg]; [done | done |].
  unfold exec. simpl. by apply severity_call_preserves.
Qed.

Lemma exec_all_preserves os s :
  facade_only s ->
  forallb (fun o => negb (is_init o)) os = true ->
  facade_only (exec_all os s)
  /\ logger_level (root (exec_all os s)) = logger_level (root s).
Proof.
  revert s. induction os as [|o os IH]; intros s Hs Hos; [done |].
  simpl in Hos. apply andb_true_iff in Hos as [Ho Hos].
  apply negb_true_iff in Ho. simpl.
  destruct (IH (exec o s)) as [Hwf Hlvl];
    [by apply exec_preserves | done |].
  split; [done |]. rewrite Hlvl. by apply exec_keeps_root_level.
Qed.

Lemma facade_only_initial : facade_only LOG.initial.
Proof.
  split; [| by left]. intros n l Hl.
  cbn [loggerDict LOG.initial] in Hl. by rewrite lookup_empty in Hl.
Qed.

Lemma reachable_facade_only s : reachable s -> facade_only s.
Proof.
  induction 1 as [|o s _ IH]; [apply facade_only_initial |].
  by apply exec_preserves.
Qed.

Lemma target_str n : exists ref, target (VStr n) = Some ref.
Proof.
  unfold target.
  destruct (negb (truthy (VStr n)) || bool_decide (VStr n = VStr "root"));
    eauto.
Qed.

Lemma stdout_add_emitted es s :
  stdout (add_emitted es s)
  = (stdout s
     ++ omap (fun e : Handler * LogRecord =>
                if bool_decide (e.1 = LOG.handler) then LOG.format e.2
                else None) es)%list.
Proof. unfold stdout. simpl. apply omap_app. Qed.

Lemma format_total r : exists line, LOG.format r = Some line.
Proof. unfold LOG.format. rewrite formatMessage_eq. simpl. eauto. Qed.

(** A logging call whose resolved name the library accepts, from a state
    only the facade has touched. *)
Lemma severity_call_facade_only sev site msg s name s0 ref :
  facade_only s ->
  resolve_name site s = (Ok name, s0) ->
  target name = Some ref ->
  (severity_call sev site msg s).1 = Ok tt
  /\ emitted (severity_call sev site msg s).2
     = (emitted s
        ++ if logger_level (root s) <=? severity_level sev
           then [(LOG.handler, emission sev ref site msg)] else [])%list.
Proof.
  intros Hs Hres Ht.
  assert (Hs0 : facade_only s0 /\ root s0 = root s /\ emitted s0 = emitted s).
  { destruct (decide (_custom_name s = VNone)) as [Hnone|Hset].
    - rewrite resolve_name_unset in Hres by done. by simplify_eq.
    - rewrite resolve_name_set in Hres by done. by simplify_eq. }
  destruct Hs0 as (Hs0 & Hroot & Hem).
  rewrite (severity_call_dispatch _ _ _ _ _ _ Hres).
  rewrite (dispatch_facade_only _ _ _ _ _ ref) by done.
  destruct (create_logger_facade_only name s0 Hs0) as (_ & _ & Hem1 & _).
  rewrite Hroot. split; [done |]. simpl.
  destruct (logger_level (root s) <=? severity_level sev); simpl.
  - by rewrite Hem1, Hem.
  - by rewrite Hem1, Hem, app_nil_r.
Qed.

(** ** The level set by [init] *)

(** C3.  From any state in which the loggers are as the facade leaves
    them, whatever level the root logger has at that point, [init] with
    [log_level: "WARNING"] returns, sets [LOG.level] to the number of
    ["WARNING"] and sets that level on the root logger.  The level stays
    there through any further uses of the facade other than [init], and it
    is the effective level of every logger.  A severity call made then,
    plainly or under a string name, returns, and the shared handler is
    handed its record, and writes its line, exactly when the level of the
    call is at least [WARNING]: never for [debug] and [info], once for
    [warning], [error] and [exception]. *)
Theorem init_warning_gates_severity_calls s config os sev site msg :
  facade_only s ->
  config !! "log_level" = Some (VStr "WARNING") ->
  forallb (fun o => negb (is_init o)) os = true ->
  (_custom_name (exec_all os (exec (OpInit config) s)) = VNone
   \/ exists n,
        _custom_name (exec_all os (exec (OpInit config) s)) = VStr n) ->
  LOG.init config s = (Ok tt, exec (OpInit config) s)
  /\ level (exec (OpInit config) s) = VInt WARNING
  /\ logger_level (root (exec (OpInit config) s)) = WARNING
  /\ logger_level (root (exec_all os (exec (OpInit config) s))) = WARNING
  /\ (forall r,
        getEffectiveLevel r (exec_all os (exec (OpInit config) s)) = WARNING)
  /\ exists name ref line,
       (resolve_name site (exec_all os (exec (OpInit config) s))).1 = Ok name
       /\ target name = Some ref
       /\ LOG.format (emission sev ref site msg) = Some line
       /\ (severity_call sev site msg
             (exec_all os (exec (OpInit config) s))).1 = Ok tt
       /\ emitted
            (severity_call sev site msg
               (exec_all os (exec (OpInit config) s))).2
          = (emitted (exec_all os (exec (OpInit config) s))
             ++ if WARNING <=? severity_level sev
                then [(LOG.handler, emission sev ref site msg)] else [])%list
       /\ stdout
            (severity_call sev site msg
               (exec_all os (exec (OpInit config) s))).2
          = (stdout (exec_all os (exec (OpInit config) s))
             ++ if WARNING <=? severity_level sev then [line] else [])%list.
Proof.
  intros Hreach Hcfg Hos Hname.
  pose proof (init_eq config s) as Hinit. simpl in Hinit.
  rewrite Hcfg in Hinit. simpl in Hinit.
  assert (Hexec : exec (OpInit config) s = (LOG.init config s).2)
    by reflexivity.
  assert (H1 : facade_only (exec (OpInit config) s))
    by by apply exec_preserves.
  assert (Hroot1 : logger_level (root (exec (OpInit config) s)) = WARNING).
  { rewrite Hexec, Hinit. reflexivity. }
  split; [by rewrite Hexec, Hinit |].
  split; [by rewrite Hexec, Hinit |].
  split; [exact Hroot1 |].
  destruct (exec_all_preserves os _ H1 Hos) as [H2 Hroot2].
  rewrite Hroot1 in Hroot2.
  split; [exact Hroot2 |].
  split.
  { intros r. rewrite <- Hroot2. by apply getEffectiveLevel_facade_only. }
  set (s2 := exec_all os (exec (OpInit config) s)) in *.
  assert (Hres : exists name s0 ref,
             resolve_name site s2 = (Ok name, s0) /\ target name = Some ref).
  { destruct Hname as [Hnone | [n Hn]].
    - rewrite resolve_name_unset by done.
      destruct (target_str (try_except (caller_name site) "HolmesV"))
        as [ref Href]. eauto.
    - rewrite resolve_name_set by by rewrite Hn.
      rewrite Hn. destruct (target_str n) as [ref Href]. eauto. }
  destruct Hres as (name & s0 & ref & Hres & Ht).
  destruct (format_total (emission sev ref site msg)) as [line Hline].
  destruct (severity_call_facade_only sev site msg s2 name s0 ref H2 Hres Ht)
    as [Hok Hem].
  rewrite Hroot2 in Hem.
  exists name, ref, line.
  split; [by rewrite Hres |]. split; [done |]. split; [done |].
  split; [done |]. split; [done |].
  unfold stdout. rewrite Hem, omap_app. f_equal.
  destruct (WARNING <=? severity_level sev); [| done].
  cbn [omap list_omap fst snd]. rewrite bool_decide_eq_true_2 by done.
  cbn [fst snd]. by rewrite Hline.
Qed.

Lemma init_warning_gates_severity_calls_witness :
  logger_level (root (exec (OpInit debug_config) LOG.initial)) = DEBUG
  /\ LOG.init warning_config (exec (OpInit debug_config) LOG.initial)
     = (Ok tt,
        exec (OpInit warning_config) (exec (OpInit debug_config) LOG.initial))
  /\ level (exec (OpInit warning_config)
              (exec (OpInit debug_config) LOG.initial)) = VInt WARNING
  /\ logger_level
       (root (exec (OpInit warning_config)
                (exec (OpInit debug_config) LOG.initial))) = WARNING
  /\ getEffectiveLevel (Named "mymod:myfunc:42")
       (exec_all [OpCall Info sample_site "x"; OpNamed (VStr "custom")]
          (exec (OpInit warning_config)
             (exec (OpInit debug_config) LOG.initial))) = WARNING.
Proof.
  pose proof
    (init_warning_gates_severity_calls
       (exec (OpInit debug_config) LOG.initial) warning_config
       [OpCall Info sample_site "x"; OpNamed (VStr "custom")]
       Warning sample_site "y"
       (reachable_facade_only _
          (reachable_step (OpInit debug_config) _ reachable_initial))
       eq_refl eq_refl
       (or_intror (ex_intro _ "custom" eq_refl))) as H.
  split; [reflexivity |].
  split; [exact (proj1 H) |].
  split; [exact (proj1 (proj2 H)) |].
  split; [exact (proj1 (proj2 (proj2 H))) |].
  exact (proj1 (proj2 (proj2 (proj2 (proj2 H)))) (Named "mymod:myfunc:42")).
Defined.

Example debug_then_warning_run :
  stdout
    (exec_all
       [ OpInit debug_config;
         OpCall Debug sample_site "seen at DEBUG";
         OpInit warning_config;
         OpCall Debug sample_site "hidden at WARNING";
         OpCall Info sample_site "hidden too";
         OpCall Warning sample_site "seen at WARNING" ]
       LOG.initial)
  = [ "2021-03-04 05:06:07.008 | DEBUG    |  1234 | mymod:myfunc:42 | seen at DEBUG";
      "2021-03-04 05:06:07.008 | WARNING  |  1234 | mymod:myfunc:42 | seen at WARNING" ].
Proof. vm_compute. reflexivity. Qed.

Example warning_level_run :
  stdout
    (exec_all
       [ OpInit warning_config;
         OpCall Debug sample_site "d";
         OpCall Info sample_site "i";
         OpCall Warning sample_site "w";
         OpCall Error sample_site "e";
         OpNamed (VStr "custom");
         OpCall Warning sample_site "named";
         OpCall Warning moduleless_site "plain again" ]
       LOG.initial)
  = [ "2021-03-04 05:06:07.008 | WARNING  |  1234 | mymod:myfunc:42 | w";
      "2021-03-04 05:06:07.008 | ERROR    |  1234 | mymod:myfunc:42 | e";
      "2021-03-04 05:06:07.008 | WARNING  |  1234 | custom | named";
      "2021-03-04 05:06:07.008 | WARNING  |  1234 | :<module>:1 | plain again" ].
Proof. vm_compute. reflexivity. Qed.

(** ** The fallback name *)

(** C5.  When the [try] body of the name resolution raises (the stack
    cannot be read, it has no entry 2, or the module lookup fails) while no
    custom name is set, the exception is caught: the name is the fixed
    ["HolmesV"], the severity call goes on to acquire the logger of that
    name and to call the copied method on it, and it returns.  From a state
    the facade can be in, the record handed to the shared handler carries
    that name, and it is handed over when the level of the call is at least
    the level of the root logger. *)
Theorem failed_stack_inspection_falls_back sev site msg s e :
  _custom_name s = VNone ->
  caller_name site = Raise e ->
  resolve_name site s = (Ok (VStr "HolmesV"), s)
  /\ severity_call sev site msg s = dispatch sev (VStr "HolmesV") site msg s
  /\ (severity_call sev site msg s).1 = Ok tt
  /\ target (VStr "HolmesV") = Some (Named "HolmesV")
  /\ name (emission sev (Named "HolmesV") site msg) = "HolmesV"
  /\ (reachable s ->
      emitted (severity_call sev site msg s).2
      = (emitted s
         ++ if logger_level (root s) <=? severity_level sev
            then [(LOG.handler, emission sev (Named "HolmesV") site msg)]
            else [])%list).
Proof.
  intros Hnone Hfail.
  assert (Hres : resolve_name site s = (Ok (VStr "HolmesV"), s)).
  { rewrite resolve_name_unset by done. by rewrite Hfail. }
  split; [exact Hres |].
  split; [by apply severity_call_dispatch |].
  split.
  { rewrite (severity_call_dispatch _ _ _ _ _ _ Hres).
    unfold dispatch, bind. rewrite create_logger_eq. simpl.
    by rewrite logger_method_eq, log_if_enabled_eq. }
  split; [done |]. split; [done |].
  intros Hreach. apply reachable_facade_only in Hreach.
  by apply (severity_call_facade_only _ _ _ _ _ _ _ Hreach Hres).
Qed.

Lemma failed_stack_inspection_falls_back_witness :
  resolve_name failing_site LOG.initial = (Ok (VStr "HolmesV"), LOG.initial)
  /\ (severity_call Error failing_site "boom" LOG.initial).1 = Ok tt.
Proof.
  pose proof
    (failed_stack_inspection_falls_back Error failing_site "boom"
       LOG.initial (OtherException "OSError") eq_refl eq_refl) as H.
  exact (conj (proj1 H) (proj1 (proj2 (proj2 H)))).
Defined.

Example fallback_run :
  stdout (exec (OpCall Error failing_site "boom") LOG.initial)
  = [ "2021-03-04 05:06:07.008 | ERROR    |  1234 | HolmesV | boom" ].
Proof. vm_compute. reflexivity. Qed.

Lemma plain_call_name_is_module_function_line_witness :
  resolve_name sample_site LOG.initial
  = (Ok (VStr "mymod:myfunc:42"), LOG.initial).
Proof.
  exact (proj1
    (plain_call_name_is_module_function_line Info sample_site "x"
       LOG.initial _ _ (Some {| __name__ := "mymod" |})
       eq_refl eq_refl eq_refl eq_refl)).
Defined.

Lemma moduleless_caller_name_has_empty_module_witness :
  resolve_name moduleless_site LOG.initial
  = (Ok (VStr ":<module>:1"), LOG.initial).
Proof.
  exact (proj1
    (moduleless_caller_name_has_empty_module Info moduleless_site "x"
       LOG.initial _ _ eq_refl eq_refl eq_refl eq_refl)).
Defined.

(** * Further properties of the module *)

(** ** The deprecated [getLogger] *)

(** X1.  The deprecated [getLogger] only fetches or creates: without an
    argument it answers with the logger ["MYCROFT"]; it never touches the
    root logger, the output or a logger that exists already, a logger it
    creates is a plain one (propagating, no handler, no level), and asking
    again changes nothing.  Unlike [create_logger] it attaches no handler
    and leaves propagation alone. *)
Theorem deprecated_getLogger_only_fetches name s ref :
  target (default (VStr "MYCROFT") name) = Some ref ->
  (log.getLogger name s).1 = Ok ref
  /\ target (default (VStr "MYCROFT") None) = Some (Named "MYCROFT")
  /\ root (log.getLogger name s).2 = root s
  /\ emitted (log.getLogger name s).2 = emitted s
  /\ (forall n l, loggerDict s !! n = Some l ->
        loggerDict (log.getLogger name s).2 !! n = Some l)
  /\ deref ref (log.getLogger name s).2 = deref ref s
  /\ (forall n, ref = Named n ->
        loggerDict (log.getLogger name s).2 !! n
        = Some (default new_logger (loggerDict s !! n)))
  /\ log.getLogger name (log.getLogger name s).2 = log.getLogger name s.
Proof.
  intros Ht. unfold log.getLogger.
  set (v := default (VStr "MYCROFT") name) in *.
  assert (Hget : forall s0, getLogger v s0
            = match ref with
              | Root => (Ok Root, s0)
              | Named n =>
                  (Ok (Named n),
                   match loggerDict s0 !! n with
                   | Some _ => s0
                   | None =>
                       set_loggerDict (<[n := new_logger]> (loggerDict s0)) s0
                   end)
              end).
  { intros s0. by rewrite getLogger_target, Ht. }
  split; [rewrite Hget; by destruct ref |].
  split; [done |].
  destruct ref as [|n]; [by rewrite !Hget |].
  rewrite !Hget. cbn [fst snd].
  destruct (loggerDict s !! n) as [l|] eqn:Hl.
  - rewrite ?Hl. repeat split; try done.
    intros n' Heq. simplify_eq. by rewrite Hl.
  - split; [done |]. split; [done |].
    split.
    { intros n' l Hn'. cbn [loggerDict set_loggerDict].
      rewrite lookup_insert_ne; [done |].
      intros <-. by rewrite Hl in Hn'. }
    split.
    { simpl. by rewrite lookup_insert_eq, Hl. }
    split.
    { intros n' Heq. simplify_eq. cbn [loggerDict set_loggerDict].
      by rewrite lookup_insert_eq, Hl. }
    cbn [loggerDict set_loggerDict]. by rewrite lookup_insert_eq.
Qed.

Lemma deprecated_getLogger_only_fetches_witness :
  (log.getLogger None LOG.initial).1 = Ok (Named "MYCROFT")
  /\ deref (Named "MYCROFT") (log.getLogger None LOG.initial).2 = new_logger.
Proof.
  pose proof (deprecated_getLogger_only_fetches None LOG.initial
                (Named "MYCROFT") eq_refl) as H.
  split; [exact (proj1 H) |].
  exact (proj1 (proj2 (proj2 (proj2 (proj2 (proj2 H)))))).
Defined.

(** ** When a severity call returns and when it raises *)

Lemma dispatch_eq sev name site msg s :
  dispatch sev name site msg s
  = match target name with
    | Some ref =>
        log_if_enabled ref (severity_level sev) msg (severity_exc_info sev)
          (moment site) (create_logger name s).2
    | None => (Raise TypeError, s)
    end.
Proof.
  unfold dispatch, bind. rewrite create_logger_eq.
  destruct (target name) as [[|n]|]; [| | done];
    by rewrite logger_method_eq.
Qed.

Lemma has_colon_append a b : has_colon (a +:+ ":" +:+ b) = true.
Proof.
  induction a as [|c a IH]; [done |].
  change (has_colon (String c (a +:+ ":" +:+ b)) = true).
  simpl. by rewrite IH, orb_true_r.
Qed.

Lemma target_with_colon n :
  has_colon n = true -> target (VStr n) = Some (Named n).
Proof.
  intros Hn. unfold target.
  destruct n as [|c n]; [done |].
  destruct (bool_decide (VStr (String c n) = VStr "root")) eqn:Hroot.
  - apply bool_decide_eq_true_1 in Hroot. by simplify_eq.
  - done.
Qed.

Lemma caller_name_has_colon site n :
  caller_name site = Ok n -> has_colon n = true.
Proof.
  unfold caller_name.
  destruct (inspect_stack site) as [stack|]; [| done].
  destruct (stack !! 2%nat) as [record|]; [| done].
  destruct (getmodule (frame record)) as [m|]; [| done].
  intros [= <-]. apply has_colon_append.
Qed.

(** X2.  A severity call made plainly (no custom name set) returns in
    every state, whatever the stack inspection does; it logs on the
    registered logger whose name is exactly the resolved name, never on the
    root logger.  The resolved name is the fixed ["HolmesV"] exactly when
    the stack could not be inspected: [inspect.stack()] raised, it has
    fewer than three entries, or the module lookup raised. *)
Theorem plain_call_returns_on_named_logger sev site msg s :
  _custom_name s = VNone ->
  exists n,
    resolve_name site s = (Ok (VStr n), s)
    /\ target (VStr n) = Some (Named n)
    /\ (severity_call sev site msg s).1 = Ok tt
    /\ name (emission sev (Named n) site msg) = n
    /\ is_Some (loggerDict (severity_call sev site msg s).2 !! n)
    /\ (n = "HolmesV" <->
        (exists e, inspect_stack site = Raise e)
        \/ (exists stack, inspect_stack site = Ok stack
                          /\ (length stack < 3)%nat)
        \/ (exists stack record e,
              inspect_stack site = Ok stack
              /\ stack !! 2%nat = Some record
              /\ getmodule (frame record) = Raise e)).
Proof.
  intros Hnone.
  exists (try_except (caller_name site) "HolmesV").
  assert (Hres := resolve_name_unset site s Hnone).
  assert (Ht : target (VStr (try_except (caller_name site) "HolmesV"))
               = Some (Named (try_except (caller_name site) "HolmesV"))).
  { destruct (caller_name site) as [n|] eqn:Hn; [| done].
    apply target_with_colon. by apply (caller_name_has_colon site). }
  split; [done |]. split; [done |].
  rewrite (severity_call_dispatch _ _ _ _ _ _ Hres), dispatch_eq, Ht.
  rewrite log_if_enabled_eq. split; [done |]. split; [done |].
  split.
  { rewrite create_logger_eq, Ht. cbn [fst snd].
    destruct (isEnabledFor _ _ _); cbn [loggerDict add_emitted set_loggerDict];
      by rewrite lookup_insert_eq. }
  unfold caller_name.
  destruct (inspect_stack site) as [stack|e] eqn:Hstack; simpl.
  2:{ split; [| done]. intros _. left. eauto. }
  destruct (stack !! 2%nat) as [record|] eqn:Hrec; simpl.
  2:{ split; [| done]. intros _. right. left. exists stack.
      split; [done |]. apply lookup_ge_None in Hrec. lia. }
  destruct (getmodule (frame record)) as [m|e] eqn:Hmod; simpl.
  2:{ split; [| done]. intros _. right. right. eauto 10. }
  split.
  - intros Heq. apply (f_equal has_colon) in Heq.
    by rewrite has_colon_append in Heq.
  - intros [[e He] | [(st & Hst & Hlen) | (st & r & e & Hst & Hr & Hm)]].
    + done.
    + simplify_eq. apply lookup_lt_Some in Hrec. lia.
    + simplify_eq. congruence.
Qed.

Lemma plain_call_returns_on_named_logger_witness :
  exists n,
    resolve_name failing_site LOG.initial = (Ok (VStr n), LOG.initial)
    /\ target (VStr n) = Some (Named n)
    /\ (severity_call Info failing_site "x" LOG.initial).1 = Ok tt.
Proof.
  destruct (plain_call_returns_on_named_logger Info failing_site "x"
              LOG.initial eq_refl) as (n & H1 & H2 & H3 & _).
  exists n. exact (conj H1 (conj H2 H3)).
Defined.

(** X3.  A severity call under a custom name that the logging library
    rejects (a truthy value that is not a str, such as [LOG(5)]) raises
    [TypeError]; the override is consumed all the same, and nothing else
    changes: no logger is created or altered and nothing is written. *)
Theorem rejected_custom_name_raises_TypeError sev site msg s :
  target (_custom_name s) = None ->
  severity_call sev site msg s
  = (Raise TypeError, set__custom_name VNone s).
Proof.
  intros Ht.
  assert (Hset : _custom_name s ≠ VNone).
  { intros Heq. by rewrite Heq in Ht. }
  rewrite (severity_call_dispatch _ _ _ _ _ _ (resolve_name_set site s Hset)).
  by rewrite dispatch_eq, Ht.
Qed.

Lemma rejected_custom_name_raises_TypeError_witness :
  severity_call Error sample_site "x" (exec (OpNamed (VInt 5)) LOG.initial)
  = (Raise TypeError, LOG.initial).
Proof.
  exact (rejected_custom_name_raises_TypeError Error sample_site "x"
           (exec (OpNamed (VInt 5)) LOG.initial) eq_refl).
Defined.

(** ** What [LOG.level] does and does not do *)

Lemma deref_ext s s' r :
  root s = root s' -> loggerDict s = loggerDict s' -> deref r s = deref r s'.
Proof. intros Hr Hd. destruct r; simpl; by rewrite ?Hr, ?Hd. Qed.

Lemma parent_ext s s' r :
  loggerDict s = loggerDict s' -> parent s r = parent s' r.
Proof. intros Hd. destruct r; simpl; by rewrite ?Hd. Qed.

Lemma effective_level_from_ext fuel s s' r :
  root s = root s' -> loggerDict s = loggerDict s' ->
  effective_level_from fuel s r = effective_level_from fuel s' r.
Proof.
  intros Hr Hd. revert r.
  induction fuel as [|fuel IH]; intros r; simpl;
    rewrite (deref_ext s s' r Hr Hd), (parent_ext s s' r Hd).
  - done.
  - destruct (parent s' r); [by rewrite IH | done].
Qed.

Lemma callHandlers_from_ext fuel s s' r record :
  root s = root s' -> loggerDict s = loggerDict s' ->
  callHandlers_from fuel s r record = callHandlers_from fuel s' r record.
Proof.
  intros Hr Hd. revert r.
  induction fuel as [|fuel IH]; intros r; simpl;
    rewrite (deref_ext s s' r Hr Hd), (parent_ext s s' r Hd).
  - done.
  - destruct (parent s' r); [by rewrite IH | done].
Qed.

Lemma log_if_enabled_set_level v r lvl msg exc t s :
  log_if_enabled r lvl msg exc t (set_level v s)
  = ((log_if_enabled r lvl msg exc t s).1,
     set_level v (log_if_enabled r lvl msg exc t s).2).
Proof.
  rewrite !log_if_enabled_eq. cbn [fst snd].
  unfold isEnabledFor, getEffectiveLevel.
  rewrite (effective_level_from_ext _ (set_level v s) s) by done.
  rewrite (callHandlers_from_ext _ (set_level v s) s) by done.
  by match goal with |- context [if ?b then _ else _] => destruct b end.
Qed.

Lemma create_logger_set_level v name s :
  create_logger name (set_level v s)
  = ((create_logger name s).1, set_level v (create_logger name s).2).
Proof.
  rewrite !create_logger_eq. by destruct (target name) as [[|n]|].
Qed.

Lemma dispatch_set_level v sev name site msg s :
  dispatch sev name site msg (set_level v s)
  = ((dispatch sev name site msg s).1,
     set_level v (dispatch sev name site msg s).2).
Proof.
  rewrite !dispatch_eq.
  destruct (target name) as [ref|] eqn:Ht; [| done].
  rewrite create_logger_set_level. cbn [snd].
  apply log_if_enabled_set_level.
Qed.

(** X4.  No logging call reads [LOG.level]: with any other value in that
    attribute a severity call gives the same result, creates the same
    logger and hands the same records to the same handlers, and it leaves
    the attribute as it found it.  Assigning [LOG.level] therefore does not
    change what is logged; only [init] applies a level, to the root
    logger. *)
Theorem LOG_level_is_not_read_by_calls v sev site msg s :
  severity_call sev site msg (set_level v s)
  = ((severity_call sev site msg s).1,
     set_level v (severity_call sev site msg s).2)
  /\ level (severity_call sev site msg s).2 = level s.
Proof.
  destruct (decide (_custom_name s = VNone)) as [Hnone|Hset].
  - rewrite (severity_call_dispatch _ _ _ _ _ _
               (resolve_name_unset site (set_level v s) Hnone)).
    rewrite (severity_call_dispatch _ _ _ _ _ _
               (resolve_name_unset site s Hnone)).
    split; [apply dispatch_set_level |].
    pose proof (dispatch_set_level (level s) sev
                  (VStr (try_except (caller_name site) "HolmesV"))
                  site msg s) as H.
    apply (f_equal (fun p => level p.2)) in H. simpl in H.
    rewrite <- H. by destruct s.
  - rewrite (severity_call_dispatch _ _ _ _ _ _
               (resolve_name_set site (set_level v s) Hset)).
    rewrite (severity_call_dispatch _ _ _ _ _ _
               (resolve_name_set site s Hset)).
    split; [apply (dispatch_set_level v _ _ _ _ (set__custom_name VNone s)) |].
    pose proof (dispatch_set_level (level s) sev (_custom_name s)
                  site msg (set__custom_name VNone s)) as H.
    apply (f_equal (fun p => level p.2)) in H. simpl in H.
    rewrite <- H. by destruct s.
Qed.

(** ** Levels applied by [init] *)

Lemma handler_in_attach l : LOG.handler ∈ handlers (attach l).
Proof.
  unfold attach. simpl.
  destruct (bool_decide (LOG.handler ∈ handlers l)) eqn:Hin.
  - by apply bool_decide_eq_true_1 in Hin.
  - set_solver.
Qed.

Lemma exec_keeps_level o s : is_init o = false -> level (exec o s) = level s.
Proof.
  intros Ho. destruct o as [config | v | sev site msg]; [done | done |].
  unfold exec. simpl.
  destruct (decide (_custom_name s = VNone)) as [Hnone|Hset].
  - rewrite (severity_call_dispatch _ _ _ _ _ _
               (resolve_name_unset site s Hnone)).
    pose proof (dispatch_set_level (level s) sev
                  (VStr (try_except (caller_name site) "HolmesV"))
                  site msg s) as H.
    apply (f_equal (fun p => level p.2)) in H. simpl in H.
    rewrite <- H. by destruct s.
  - rewrite (severity_call_dispatch _ _ _ _ _ _
               (resolve_name_set site s Hset)).
    pose proof (dispatch_set_level (level s) sev (_custom_name s)
                  site msg (set__custom_name VNone s)) as H.
    apply (f_equal (fun p => level p.2)) in H. simpl in H.
    rewrite <- H. by destruct s.
Qed.

Lemma exec_all_keeps_level os s :
  forallb (fun o => negb (is_init o)) os = true ->
  level (exec_all os s) = level s.
Proof.
  revert s. induction os as [|o os IH]; intros s Hos; [done |].
  simpl in Hos. apply andb_true_iff in Hos as [Ho Hos].
  apply negb_true_iff in Ho. simpl.
  rewrite IH by done. by apply exec_keeps_level.
Qed.

(** A call under no name or a string name, from a state only the facade
    has touched, is gated by the level of the root logger. *)
Lemma accepted_call_gated_by_root sev site msg s :
  facade_only s ->
  (_custom_name s = VNone \/ exists n, _custom_name s = VStr n) ->
  exists name ref line,
    (resolve_name site s).1 = Ok name
    /\ target name = Some ref
    /\ LOG.format (emission sev ref site msg) = Some line
    /\ (severity_call sev site msg s).1 = Ok tt
    /\ emitted (severity_call sev site msg s).2
       = (emitted s
          ++ if logger_level (root s) <=? severity_level sev
             then [(LOG.handler, emission sev ref site msg)] else [])%list
    /\ stdout (severity_call sev site msg s).2
       = (stdout s
          ++ if logger_level (root s) <=? severity_level sev
             then [line] else [])%list.
Proof.
  intros Hs Hname.
  assert (Hres : exists name s0 ref,
             resolve_name site s = (Ok name, s0) /\ target name = Some ref).
  { destruct Hname as [Hnone | [n Hn]].
    - rewrite resolve_name_unset by done.
      destruct (target_str (try_except (caller_name site) "HolmesV"))
        as [ref Href]. eauto.
    - rewrite resolve_name_set by by rewrite Hn.
      rewrite Hn. destruct (target_str n) as [ref Href]. eauto. }
  destruct Hres as (name & s0 & ref & Hres & Ht).
  destruct (format_total (emission sev ref site msg)) as [line Hline].
  destruct (severity_call_facade_only sev site msg s name s0 ref Hs Hres Ht)
    as [Hok Hem].
  exists name, ref, line.
  split; [by rewrite Hres |]. split; [done |]. split; [done |].
  split; [done |]. split; [done |].
  unfold stdout. rewrite Hem, omap_app. f_equal.
  destruct (logger_level (root s) <=? severity_level sev); [| done].
  cbn [omap list_omap fst snd]. rewrite bool_decide_eq_true_2 by done.
  cbn [fst snd]. by rewrite Hline.
Qed.

(** X5.  Until [init] has run, [LOG.level] holds the number of ["INFO"]
    but is applied to no logger: the root logger still has the library's
    default level [WARNING], so after any uses of the facade other than
    [init] a plain or string-named [debug] or [info] call writes nothing,
    and [warning], [error] and [exception] write one line. *)
Theorem before_init_root_default_gates os sev site msg :
  forallb (fun o => negb (is_init o)) os = true ->
  (_custom_name (exec_all os LOG.initial) = VNone
   \/ exists n, _custom_name (exec_all os LOG.initial) = VStr n) ->
  level (exec_all os LOG.initial) = VInt INFO
  /\ logger_level (root (exec_all os LOG.initial)) = WARNING
  /\ exists line,
       stdout (severity_call sev site msg (exec_all os LOG.initial)).2
       = (stdout (exec_all os LOG.initial)
          ++ if WARNING <=? severity_level sev then [line] else [])%list.
Proof.
  intros Hos Hname.
  destruct (exec_all_preserves os LOG.initial facade_only_initial Hos)
    as [Hs Hroot].
  split; [by rewrite exec_all_keeps_level |].
  split; [by rewrite Hroot |].
  destruct (accepted_call_gated_by_root sev site msg _ Hs Hname)
    as (name & ref & line & _ & _ & _ & _ & _ & Hout).
  exists line. rewrite Hout, Hroot. done.
Qed.

Lemma before_init_root_default_gates_witness :
  level (exec_all [OpCall Error sample_site "e"] LOG.initial) = VInt INFO
  /\ exists line,
       stdout (severity_call Info sample_site "i"
                 (exec_all [OpCall Error sample_site "e"] LOG.initial)).2
       = (stdout (exec_all [OpCall Error sample_site "e"] LOG.initial)
          ++ if WARNING <=? severity_level Info then [line] else [])%list.
Proof.
  pose proof (before_init_root_default_gates
                [OpCall Error sample_site "e"] Info sample_site "i"
                eq_refl (or_introl eq_refl)) as H.
  exact (conj (proj1 H) (proj2 (proj2 H))).
Defined.

(** X6.  [init] with any level name the library knows ([CRITICAL],
    [FATAL], [ERROR], [WARN], [WARNING], [INFO], [DEBUG], [NOTSET]) returns,
    stores the level's number in [LOG.level] and sets it on the root
    logger; afterwards, and after any further uses of the facade other than
    [init], a plain or string-named severity call writes one line exactly
    when its level is at least that number. *)
Theorem init_known_level_gates s config n z os sev site msg :
  reachable s ->
  config !! "log_level" = Some (VStr n) ->
  nameToLevel_get (VStr n) = Some z ->
  forallb (fun o => negb (is_init o)) os = true ->
  (_custom_name (exec_all os (exec (OpInit config) s)) = VNone
   \/ exists m,
        _custom_name (exec_all os (exec (OpInit config) s)) = VStr m) ->
  LOG.init config s = (Ok tt, exec (OpInit config) s)
  /\ level (exec_all os (exec (OpInit config) s)) = VInt z
  /\ logger_level (root (exec_all os (exec (OpInit config) s))) = z
  /\ exists line,
       stdout
         (severity_call sev site msg
            (exec_all os (exec (OpInit config) s))).2
       = (stdout (exec_all os (exec (OpInit config) s))
          ++ if z <=? severity_level sev then [line] else [])%list.
Proof.
  intros Hreach Hcfg Hz Hos Hname.
  apply reachable_facade_only in Hreach.
  assert (Hn : truthy (VStr n) = true) by by destruct n.
  assert (Hlvl : getLevelName (VStr n) = VInt z).
  { unfold getLevelName. simpl levelToName_get. by rewrite Hz. }
  pose proof (init_eq config s) as Hinit. simpl in Hinit.
  rewrite Hcfg in Hinit. simpl in Hinit. unfold py_or in Hinit.
  rewrite Hn, Hlvl in Hinit. simpl in Hinit.
  assert (Hexec : exec (OpInit config) s = (LOG.init config s).2)
    by reflexivity.
  assert (H1 : facade_only (exec (OpInit config) s))
    by by apply exec_preserves.
  destruct (exec_all_preserves os _ H1 Hos) as [H2 Hroot2].
  split; [by rewrite Hexec, Hinit |].
  split; [by rewrite exec_all_keeps_level, Hexec, Hinit |].
  assert (Hroot : logger_level (root (exec_all os (exec (OpInit config) s)))
                  = z) by by rewrite Hroot2, Hexec, Hinit.
  split; [done |].
  destruct (accepted_call_gated_by_root sev site msg _ H2 Hname)
    as (name & ref & line & _ & _ & _ & _ & _ & Hout).
  exists line. by rewrite Hout, Hroot.
Qed.

Lemma init_known_level_gates_witness :
  LOG.init {[ "log_level" := VStr "DEBUG" ]} LOG.initial
  = (Ok tt, exec (OpInit {[ "log_level" := VStr "DEBUG" ]}) LOG.initial)
  /\ logger_level
       (root (exec_all [] (exec (OpInit {[ "log_level" := VStr "DEBUG" ]})
                             LOG.initial)))
     = DEBUG.
Proof.
  pose proof (init_known_level_gates LOG.initial
                {[ "log_level" := VStr "DEBUG" ]} "DEBUG" DEBUG []
                Debug sample_site "d"
                reachable_initial eq_refl eq_refl eq_refl
                (or_introl eq_refl)) as H.
  exact (conj (proj1 H) (proj1 (proj2 (proj2 H)))).
Defined.

Lemma levelToName_cases z n :
  assoc_Z z _levelToName = Some n ->
  assoc_str n _nameToLevel = Some z.
Proof.
  unfold assoc_Z, _levelToName.
  repeat match goal with
         | |- context [?a =? ?b] =>
             destruct (Z.eqb_spec a b);
             [subst; intros Heq; simplify_eq; reflexivity |]
         end.
  done.
Qed.

(** X7.  A numeric [log_level] other than 0: when it is the number of a
    level the library knows, [init] returns and sets it on the root
    logger, but [LOG.level] then holds the level's name (a string), because
    [getLevelName] maps a number to its name; for any other number
    [getLevelName] answers ["Level <number>"], [setLevel] rejects that, and
    [init] raises [ValueError]. *)
Theorem init_with_numeric_level config z s :
  config !! "log_level" = Some (VInt z) ->
  z ≠ 0 ->
  match assoc_Z z _levelToName with
  | Some n =>
      exists s',
        LOG.init config s = (Ok tt, s')
        /\ level s' = VStr n
        /\ logger_level (root s') = z
  | None =>
      exists s',
        LOG.init config s = (Raise ValueError, s')
        /\ level s' = VStr ("Level " +:+ str_int z)
        /\ logger_level (root s') = logger_level (root s)
  end.
Proof.
  intros Hcfg Hz.
  assert (Ht : truthy (VInt z) = true).
  { simpl. by destruct (Z.eqb_spec z 0). }
  assert (Hor : py_or (default (VStr "INFO") (config !! "log_level"))
                  (VStr "INFO") = VInt z).
  { rewrite Hcfg. change (py_or (VInt z) (VStr "INFO") = VInt z).
    unfold py_or. by rewrite Ht. }
  pose proof (init_eq config s) as Hinit. cbv zeta in Hinit.
  rewrite Hor in Hinit.
  destruct (assoc_Z z _levelToName) as [n|] eqn:Hn.
  - assert (Hlvl : getLevelName (VInt z) = VStr n).
    { unfold getLevelName, levelToName_get. cbn [as_int_key]. by rewrite Hn. }
    assert (Hck : _checkLevel (VStr n) = Ok z).
    { unfold _checkLevel. by rewrite (levelToName_cases _ _ Hn). }
    rewrite Hlvl, Hck in Hinit.
    eexists. split; [exact Hinit |]. done.
  - assert (Hlvl : getLevelName (VInt z) = VStr ("Level " +:+ str_int z)).
    { unfold getLevelName, levelToName_get. cbn [as_int_key].
      by rewrite Hn. }
    assert (Hck : _checkLevel (VStr ("Level " +:+ str_int z))
                  = Raise ValueError).
    { unfold _checkLevel. by rewrite level_prefix_is_no_level_name. }
    rewrite Hlvl, Hck in Hinit.
    eexists. split; [exact Hinit |]. done.
Qed.

Lemma init_with_numeric_level_witness :
  (exists s',
     LOG.init {[ "log_level" := VInt 10 ]} LOG.initial = (Ok tt, s')
     /\ level s' = VStr "DEBUG"
     /\ logger_level (root s') = 10)
  /\ (exists s',
        LOG.init {[ "log_level" := VInt 15 ]} LOG.initial
        = (Raise ValueError, s')
        /\ level s' = VStr "Level 15"
        /\ logger_level (root s') = WARNING).
Proof.
  split.
  - exact (init_with_numeric_level {[ "log_level" := VInt 10 ]} 10
             LOG.initial eq_refl ltac:(discriminate)).
  - exact (init_with_numeric_level {[ "log_level" := VInt 15 ]} 15
             LOG.initial eq_refl ltac:(discriminate)).
Defined.

(** X8.  [init] can be repeated: a second [init] with the same
    configuration gives the same result and leaves the state exactly as the
    first one left it; in particular the root logger does not get the
    shared handler a second time. *)
Theorem init_twice_is_init_once config s :
  LOG.init config (LOG.init config s).2 = LOG.init config s.
Proof.
  pose proof (init_eq config s) as H1.
  pose proof (init_eq config (LOG.init config s).2) as H2.
  cbv zeta in H1, H2. rewrite H2. clear H2. rewrite H1.
  pose proof (handler_in_attach (root s)) as Hin.
  destruct (_checkLevel _) as [z|e]; cbn [fst snd root set_root set_level].
  - unfold attach at 1 3. cbn [handlers logger_level propagate].
    rewrite bool_decide_eq_true_2 by done. reflexivity.
  - rewrite attach_idempotent. reflexivity.
Qed.

(** ** What the operations leave alone *)

Lemma resolve_name_cases site s :
  exists name s0,
    resolve_name site s = (Ok name, s0)
    /\ root s0 = root s /\ loggerDict s0 = loggerDict s
    /\ emitted s0 = emitted s
    /\ (_custom_name s = VNone \/ name = _custom_name s).
Proof.
  destruct (decide (_custom_name s = VNone)) as [Hnone|Hset].
  - rewrite resolve_name_unset by done. eauto 10.
  - rewrite resolve_name_set by done. eauto 10.
Qed.

Lemma facade_only_ext s s' :
  root s = root s' -> loggerDict s = loggerDict s' ->
  facade_only s -> facade_only s'.
Proof. intros Hr Hd [H1 H2]. split; by rewrite <- ?Hr, <- ?Hd. Qed.

Lemma severity_call_loggerDict sev site msg s :
  exists name,
    (_custom_name s = VNone \/ name = _custom_name s)
    /\ loggerDict (severity_call sev site msg s).2
       = match target name with
         | Some (Named n) =>
             <[n := attach (default new_logger (loggerDict s !! n))]>
               (loggerDict s)
         | _ => loggerDict s
         end.
Proof.
  destruct (resolve_name_cases site s)
    as (name & s0 & Hres & _ & Hd & _ & Hname).
  exists name. split; [done |].
  rewrite (severity_call_dispatch _ _ _ _ _ _ Hres), dispatch_eq.
  destruct (target name) as [ref|] eqn:Ht; [| done].
  rewrite log_if_enabled_eq, create_logger_eq, Ht. cbn [fst snd].
  destruct ref as [|n];
    match goal with |- context [if ?b then _ else _] => destruct b end;
    cbn [loggerDict set_root set_loggerDict add_emitted]; by rewrite ?Hd.
Qed.

(** X9.  Registered loggers persist, and a severity call touches only
    the logger it acquires.  No operation of the facade removes a
    registered logger; [init] and [LOG(name)] leave every registered logger
    as it is ([init] works on the root logger); a severity call leaves the
    logger registered under every name other than its resolved name as it
    was, and registers no logger under any other name. *)
Theorem registered_loggers_persist o s :
  (forall n, is_Some (loggerDict s !! n) ->
             is_Some (loggerDict (exec o s) !! n))
  /\ (is_call o = false -> loggerDict (exec o s) = loggerDict s)
  /\ (forall sev site msg,
        o = OpCall sev site msg ->
        exists name,
          (resolve_name site s).1 = Ok name
          /\ forall n, target name ≠ Some (Named n) ->
                       loggerDict (exec o s) !! n = loggerDict s !! n).
Proof.
  destruct o as [config | v | sev site msg]; unfold exec; simpl.
  - assert (Hd : loggerDict (LOG.init config s).2 = loggerDict s).
    { pose proof (init_eq config s) as H. cbv zeta in H. rewrite H.
      by destruct (_checkLevel _). }
    rewrite Hd. split; [done |]. split; [done |]. intros ? ? ? Heq.
    discriminate.
  - split; [done |]. split; [done |]. intros ? ? ? Heq. discriminate.
  - destruct (resolve_name_cases site s)
      as (name & s0 & Hres & _ & Hd0 & _ & _).
    assert (Hd : loggerDict (severity_call sev site msg s).2
                 = match target name with
                   | Some (Named n) =>
                       <[n := attach (default new_logger
                                        (loggerDict s !! n))]>
                         (loggerDict s)
                   | _ => loggerDict s
                   end).
    { rewrite (severity_call_dispatch _ _ _ _ _ _ Hres), dispatch_eq.
      destruct (target name) as [ref|] eqn:Ht; [| done].
      rewrite log_if_enabled_eq, create_logger_eq, Ht. cbn [fst snd].
      destruct ref as [|n];
        match goal with |- context [if ?b then _ else _] => destruct b end;
        cbn [loggerDict set_root set_loggerDict add_emitted];
        by rewrite ?Hd0. }
    split; [| split; [done |]].
    + intros m Hm. rewrite Hd.
      destruct (target name) as [[|n]|]; try done.
      rewrite lookup_insert. by case_decide.
    + intros sev' site' msg' Heq. simplify_eq.
      exists name. split; [by rewrite Hres |].
      intros n Hn. rewrite Hd.
      destruct (target name) as [[|m]|]; try done.
      rewrite lookup_insert_ne; [done |]. intros ->. by apply Hn.
Qed.

(** X10.  Standard output is only appended to.  From a state the facade
    can be in, one operation adds at most one line to what the shared
    handler has written and never alters an earlier line; [init] and
    [LOG(name)] write nothing.  (At most one line holds although the root
    logger carries the handler too: the loggers the facade acquires do not
    propagate, and none carries the handler twice.) *)
Theorem output_is_append_only o s :
  reachable s ->
  exists lines,
    stdout (exec o s) = (stdout s ++ lines)%list
    /\ (length lines <= 1)%nat
    /\ (is_call o = false -> lines = []).
Proof.
  intros Hreach. apply reachable_facade_only in Hreach.
  destruct o as [config | v | sev site msg]; unfold exec; simpl.
  - exists []. rewrite app_nil_r. split; [| split; [simpl; lia | done]].
    pose proof (init_eq config s) as H. cbv zeta in H. rewrite H.
    by destruct (_checkLevel _).
  - exists []. rewrite app_nil_r. split; [done | split; [simpl; lia | done]].
  - destruct (resolve_name_cases site s)
      as (name & s0 & Hres & Hr & Hd & Hem & _).
    destruct (target name) as [ref|] eqn:Ht.
    + destruct (severity_call_facade_only sev site msg s name s0 ref
                  Hreach Hres Ht) as [_ Hemit].
      destruct (format_total (emission sev ref site msg)) as [line Hline].
      destruct (logger_level (root s) <=? severity_level sev).
      * exists [line]. unfold stdout at 1. rewrite Hemit, omap_app.
        cbn [omap list_omap fst snd]. rewrite bool_decide_eq_true_2 by done.
        cbn [fst snd]. rewrite Hline.
        split; [done |]. split; [simpl; lia | done].
      * exists []. unfold stdout. rewrite Hemit, !app_nil_r.
        split; [done |]. split; [simpl; lia | done].
    + rewrite (severity_call_dispatch _ _ _ _ _ _ Hres).
      rewrite dispatch_rejected by done.
      exists []. rewrite app_nil_r. unfold stdout. simpl. rewrite Hem.
      split; [done |]. split; [simpl; lia | done].
Qed.

Lemma output_is_append_only_witness :
  exists lines,
    stdout (exec (OpCall Error sample_site "e") LOG.initial)
    = (stdout LOG.initial ++ lines)%list
    /\ (length lines <= 1)%nat.
Proof.
  destruct (output_is_append_only (OpCall Error sample_site "e")
              LOG.initial reachable_initial) as (lines & H1 & H2 & _).
  exists lines. exact (conj H1 H2).
Defined.

(** ** Invariants of the reachable states *)

Lemma init_root_level config s :
  (exists n, assoc_str n _nameToLevel
             = Some (logger_level (root (LOG.init config s).2)))
  \/ logger_level (root (LOG.init config s).2) = logger_level (root s).
Proof.
  pose proof (init_eq config s) as H. cbv zeta in H. rewrite H. clear H.
  set (v := py_or _ _). unfold getLevelName.
  destruct (levelToName_get v) as [n|].
  - unfold _checkLevel.
    destruct (assoc_str n _nameToLevel) as [z|] eqn:Hz; [| by right].
    left. by exists n.
  - destruct (nameToLevel_get v) as [z|] eqn:Hz.
    + left. destruct v; try done. by exists s0.
    + right. unfold _checkLevel.
      by rewrite level_prefix_is_no_level_name.
Qed.

Lemma reachable_root_level_known s :
  reachable s ->
  exists n, assoc_str n _nameToLevel = Some (logger_level (root s)).
Proof.
  induction 1 as [|o s Hreach IH]; [by exists "WARNING" |].
  destruct o as [config | v | sev site msg]; unfold exec; simpl.
  - destruct (init_root_level config s) as [Hk | Heq]; [done |].
    by rewrite Heq.
  - done.
  - apply reachable_facade_only in Hreach.
    destruct (severity_call_preserves sev site msg s Hreach) as [_ Heq].
    by rewrite Heq.
Qed.

(** X11.  In every state the facade can be in: each registered logger has
    no level of its own, does not propagate, and carries the shared handler
    exactly once; the root logger carries it at most once and its level is
    one of the library's standard level numbers; and the effective level
    of every logger, registered or not, is the level of the root logger, so
    one level gates all the facade's output. *)
Theorem reachable_loggers_share_one_level s :
  reachable s ->
  (forall n l, loggerDict s !! n = Some l ->
     logger_level l = NOTSET /\ propagate l = false
     /\ handlers l = [LOG.handler])
  /\ (handlers (root s) = [] \/ handlers (root s) = [LOG.handler])
  /\ (exists n, assoc_str n _nameToLevel = Some (logger_level (root s)))
  /\ (forall r, getEffectiveLevel r s = logger_level (root s)).
Proof.
  intros Hreach.
  pose proof (reachable_root_level_known s Hreach) as Hk.
  apply reachable_facade_only in Hreach.
  destruct Hreach as [Hreg Hroot].
  split; [exact Hreg |]. split; [exact Hroot |]. split; [exact Hk |].
  intros r. by apply getEffectiveLevel_facade_only.
Qed.

Lemma reachable_loggers_share_one_level_witness :
  getEffectiveLevel (Named "other.module")
    (exec (OpCall Error sample_site "e")
       (exec (OpInit {[ "log_level" := VStr "DEBUG" ]}) LOG.initial))
  = DEBUG.
Proof.
  exact (proj2 (proj2 (proj2
    (reachable_loggers_share_one_level _
       (reachable_step (OpCall Error sample_site "e") _
          (reachable_step (OpInit {[ "log_level" := VStr "DEBUG" ]}) _
             reachable_initial)))))
    (Named "other.module")).
Defined.

(** ** More on the one-shot name *)

Lemma init_keeps_custom_name config s :
  _custom_name (LOG.init config s).2 = _custom_name s.
Proof.
  pose proof (init_eq config s) as H. cbv zeta in H. rewrite H.
  by destruct (_checkLevel _).
Qed.

(** X12.  The override is one slot that only a logging call empties: of
    two [LOG(a)], [LOG(b)] in a row the second replaces the first, and an
    [init] in between logging calls does not consume it, so the next
    logging call after [LOG(a); LOG(b); init()] uses [b]. *)
Theorem last_custom_name_wins a b config site s :
  b ≠ VNone ->
  _custom_name
    (exec (OpInit config) (exec (OpNamed b) (exec (OpNamed a) s))) = b
  /\ resolve_name site
       (exec (OpInit config) (exec (OpNamed b) (exec (OpNamed a) s)))
     = (Ok b,
        set__custom_name VNone
          (exec (OpInit config) (exec (OpNamed b) (exec (OpNamed a) s)))).
Proof.
  intros Hb.
  assert (Hc : _custom_name
                 (exec (OpInit config) (exec (OpNamed b) (exec (OpNamed a) s)))
               = b).
  { unfold exec at 1. simpl run_op. by rewrite init_keeps_custom_name. }
  split; [exact Hc |].
  rewrite <- Hc at 2. apply resolve_name_set. by rewrite Hc.
Qed.

Lemma last_custom_name_wins_witness :
  _custom_name
    (exec (OpInit warning_config)
       (exec (OpNamed (VStr "b")) (exec (OpNamed (VStr "a")) LOG.initial)))
  = VStr "b".
Proof.
  exact (proj1 (last_custom_name_wins (VStr "a") (VStr "b") warning_config
                  sample_site LOG.initial ltac:(discriminate))).
Defined.

(** X13.  A custom name that is falsy without being [None] (the empty
    string, [0], [False]), or the name ["root"], selects the root logger:
    from a state the facade can be in the call returns, registers no
    logger, and the record it hands to the shared handler (when its level
    is at least the root logger's) carries the name ["root"], not the
    custom name. *)
Theorem falsy_custom_name_logs_on_root sev site msg s :
  reachable s ->
  _custom_name s ≠ VNone ->
  target (_custom_name s) = Some Root ->
  (truthy (_custom_name s) = false \/ _custom_name s = VStr "root")
  /\ (severity_call sev site msg s).1 = Ok tt
  /\ loggerDict (severity_call sev site msg s).2 = loggerDict s
  /\ name (emission sev Root site msg) = "root"
  /\ emitted (severity_call sev site msg s).2
     = (emitted s
        ++ if logger_level (root s) <=? severity_level sev
           then [(LOG.handler, emission sev Root site msg)] else [])%list.
Proof.
  intros Hreach Hset Ht. apply reachable_facade_only in Hreach.
  split.
  { revert Ht. unfold target.
    destruct (truthy (_custom_name s)); [| by left]. simpl.
    destruct (bool_decide (_custom_name s = VStr "root")) eqn:Hroot.
    - right. by apply bool_decide_eq_true_1 in Hroot.
    - by destruct (_custom_name s). }
  destruct (severity_call_facade_only sev site msg s _ _ Root Hreach
              (resolve_name_set site s Hset) Ht) as [Hok Hem].
  split; [done |]. split; [| by split].
  destruct (severity_call_loggerDict sev site msg s) as (nm & [Hn | ->] & Hd);
    [done |].
  by rewrite Hd, Ht.
Qed.

Lemma falsy_custom_name_logs_on_root_witness :
  (severity_call Error sample_site "e"
     (exec (OpNamed (VStr "")) LOG.initial)).1 = Ok tt
  /\ emitted (severity_call Error sample_site "e"
                (exec (OpNamed (VStr "")) LOG.initial)).2
     = [(LOG.handler, emission Error Root sample_site "e")].
Proof.
  pose proof (falsy_custom_name_logs_on_root Error sample_site "e"
                (exec (OpNamed (VStr "")) LOG.initial)
                (reachable_step (OpNamed (VStr "")) _ reachable_initial)
                ltac:(discriminate) eq_refl) as H.
  exact (conj (proj1 (proj2 H)) (proj2 (proj2 (proj2 (proj2 H))))).
Defined.

(** ** Loggers of other modules *)

Lemma first_registered_registered (d : gmap string Logger) names q :
  first_registered d names = Named q -> q ∈ names /\ is_Some (d !! q).
Proof.
  induction names as [|n names IH]; simpl; [done |].
  destruct (d !! n) as [l|] eqn:Hl.
  - intros [= <-]. split; [apply elem_of_cons; by left | by rewrite Hl].
  - intros H. destruct (IH H) as [Hin Hq].
    split; [apply elem_of_cons; by right | done].
Qed.

Lemma effective_level_unset_levels s :
  (forall n l, loggerDict s !! n = Some l -> logger_level l = NOTSET) ->
  forall fuel r,
    (depth_bound r <= fuel)%nat ->
    effective_level_from fuel s r = logger_level (root s).
Proof.
  intros Hreg.
  assert (Hlvl : forall n, logger_level (deref (Named n) s) = NOTSET).
  { intros n. simpl. destruct (loggerDict s !! n) as [l|] eqn:Hl; [| done].
    by apply (Hreg n). }
  induction fuel as [|fuel IH]; intros r Hfuel.
  - destruct r as [|n]; [| simpl in Hfuel; lia].
    simpl. destruct (logger_level (root s) =? 0) eqn:H0; simpl; [| done].
    apply Z.eqb_eq in H0. by rewrite H0.
  - destruct r as [|n].
    + simpl. destruct (logger_level (root s) =? 0) eqn:H0; simpl; [| done].
      apply Z.eqb_eq in H0. by rewrite H0.
    + change (effective_level_from (S fuel) s (Named n))
        with (if negb (logger_level (deref (Named n) s) =? 0)
              then logger_level (deref (Named n) s)
              else match parent s (Named n) with
                   | Some p => effective_level_from fuel s p
                   | None => NOTSET
                   end).
      rewrite Hlvl. simpl negb. cbv iota.
      destruct (parent s (Named n)) as [p|] eqn:Hp; [| done].
      apply IH. apply parent_depth in Hp. lia.
Qed.

Lemma callHandlers_from_root fuel s record :
  callHandlers_from fuel s Root record
  = (fun h => (h, record)) <$>
      filter (fun h => h_level h <= levelno record) (handlers (root s)).
Proof. destruct fuel; simpl; by destruct (propagate (root s)). Qed.

Lemma one_handler_admits (record : LogRecord) :
  0 <= levelno record ->
  (fun h => (h, record)) <$>
    filter (fun h => h_level h <= levelno record) [LOG.handler]
  = [(LOG.handler, record)].
Proof. intros Hlvl. by rewrite filter_cons_True. Qed.

(** X14.  [init] is what lets the loggers of other modules through (the
    comment on line 88).  After [init], whether it returned or raised, a
    record logged on a logger obtained from the deprecated [getLogger]
    (a plain logger that propagates and has no handler of its own) climbs
    to the nearest registered ancestor or to the root logger, is handed to
    the shared handler exactly once, and is gated by the root logger's
    level like the facade's own records. *)
Theorem init_lets_plain_loggers_through config s name ref sev msg t :
  reachable s ->
  target (default (VStr "MYCROFT") name) = Some ref ->
  (log.getLogger name (LOG.init config s).2).1 = Ok ref
  /\ LOG.handler ∈ handlers (root (LOG.init config s).2)
  /\ logger_method sev ref msg t (log.getLogger name (LOG.init config s).2).2
     = (Ok tt,
        if logger_level (root (LOG.init config s).2) <=? severity_level sev
        then add_emitted
               [(LOG.handler,
                 makeRecord ref (severity_level sev) msg
                   (severity_exc_info sev) t)]
               (log.getLogger name (LOG.init config s).2).2
        else (log.getLogger name (LOG.init config s).2).2).
Proof.
  intros Hreach Ht. apply reachable_facade_only in Hreach.
  assert (Hroot : handlers (root (LOG.init config s).2) = [LOG.handler]).
  { destruct Hreach as [_ Hr].
    pose proof (attach_fresh_or_attached _ Hr) as Hh.
    pose proof (init_eq config s) as H. cbv zeta in H. rewrite H.
    by destruct (_checkLevel _). }
  pose proof (init_preserves config s Hreach) as Hs1.
  set (s1 := (LOG.init config s).2) in *.
  set (record := makeRecord ref (severity_level sev) msg
                   (severity_exc_info sev) t).
  assert (Hrec : 0 <= levelno record) by apply severity_level_nonneg.
  unfold log.getLogger. rewrite getLogger_target, Ht.
  split; [by destruct ref |].
  split; [rewrite Hroot; set_solver |].
  rewrite logger_method_eq, log_if_enabled_eq. fold record.
  unfold isEnabledFor. rewrite severity_level_not_disabled.
  destruct Hs1 as [Hreg Hr1].
  destruct ref as [|n]; cbn [snd].
  - rewrite getEffectiveLevel_facade_only by done.
    rewrite callHandlers_from_root, Hroot, one_handler_admits by done.
    done.
  - destruct (loggerDict s1 !! n) as [l|] eqn:Hl.
    + destruct (Hreg _ _ Hl) as (_ & Hprop & Hh).
      rewrite getEffectiveLevel_facade_only by done.
      rewrite callHandlers_from_no_propagate by (simpl; by rewrite Hl).
      simpl deref. rewrite Hl. simpl default.
      by rewrite Hh, one_handler_admits.
    + set (s2 := set_loggerDict (<[n:=new_logger]> (loggerDict s1)) s1).
      assert (Hlevels : forall m l, loggerDict s2 !! m = Some l ->
                                   logger_level l = NOTSET).
      { intros m l. cbn [s2 loggerDict set_loggerDict].
        rewrite lookup_insert. case_decide; [by intros [= <-] |].
        intros Hm. by destruct (Hreg _ _ Hm). }
      unfold getEffectiveLevel.
      rewrite (effective_level_unset_levels s2 Hlevels) by done.
      f_equal. change (root s2) with (root s1).
      destruct (logger_level (root s1) <=? severity_level sev); [| done].
      f_equal. f_equal.
      change (depth_bound (Named n)) with (S (String.length n)).
      assert (Hself : deref (Named n) s2 = new_logger).
      { cbn [deref s2 loggerDict set_loggerDict].
        by rewrite lookup_insert_eq. }
      cbn [callHandlers_from]. rewrite Hself.
      change (propagate new_logger) with true.
      change (handlers new_logger) with (@nil Handler).
      cbv iota. rewrite filter_nil. cbn [fmap list_fmap app parent].
      destruct (first_registered (loggerDict s2) (dotted_prefixes n))
        as [|q] eqn:Hp.
      * change (root s2) with (root s1) in *.
        rewrite callHandlers_from_root.
        change (root s2) with (root s1).
        by rewrite Hroot, one_handler_admits.
      * apply first_registered_registered in Hp as [Hin [l Hq]].
        apply dotted_prefixes_shorter in Hin.
        assert (Hne : n ≠ q) by (intros ->; lia).
        cbn [s2 loggerDict set_loggerDict] in Hq.
        rewrite lookup_insert_ne in Hq by done.
        destruct (Hreg _ _ Hq) as (_ & Hprop & Hh).
        assert (Hd : deref (Named q) s2 = l).
        { cbn [deref s2 loggerDict set_loggerDict].
          by rewrite lookup_insert_ne, Hq. }
        rewrite callHandlers_from_no_propagate by by rewrite Hd.
        by rewrite Hd, Hh, one_handler_admits.
Qed.

Lemma init_lets_plain_loggers_through_witness :
  (log.getLogger None (LOG.init warning_config LOG.initial).2).1
  = Ok (Named "MYCROFT")
  /\ LOG.handler ∈ handlers (root (LOG.init warning_config LOG.initial).2).
Proof.
  pose proof (init_lets_plain_loggers_through warning_config LOG.initial
                None (Named "MYCROFT") Error "e" sample_moment
                reachable_initial eq_refl) as H.
  exact (conj (proj1 H) (proj1 (proj2 H))).
Defined.

(** X15.  A severity call under a non-empty string name, from a state the
    facade can be in, returns, and the record it hands to the shared
    handler (when its level is at least the root logger's) carries exactly
    that name in its name field; this includes the name ["root"], which
    selects the root logger. *)
Theorem string_named_call_logs_under_that_name n sev site msg s :
  reachable s ->
  _custom_name s = VStr n ->
  n ≠ "" ->
  exists ref,
    target (VStr n) = Some ref
    /\ name (emission sev ref site msg) = n
    /\ (severity_call sev site msg s).1 = Ok tt
    /\ emitted (severity_call sev site msg s).2
       = (emitted s
          ++ if logger_level (root s) <=? severity_level sev
             then [(LOG.handler, emission sev ref site msg)] else [])%list.
Proof.
  intros Hreach Hn Hne. apply reachable_facade_only in Hreach.
  assert (Hset : _custom_name s ≠ VNone) by by rewrite Hn.
  pose proof (resolve_name_set site s Hset) as Hres. rewrite Hn in Hres.
  assert (Ht : exists ref, target (VStr n) = Some ref
                           /\ name_of ref = n).
  { unfold target. assert (truthy (VStr n) = true) as -> by by destruct n.
    simpl. destruct (bool_decide (VStr n = VStr "root")) eqn:Hroot.
    - apply bool_decide_eq_true_1 in Hroot. simplify_eq. by exists Root.
    - by exists (Named n). }
  destruct Ht as (ref & Ht & Hname).
  exists ref. split; [done |]. split; [done |].
  by apply (severity_call_facade_only _ _ _ _ _ _ _ Hreach Hres).
Qed.

Lemma string_named_call_logs_under_that_name_witness :
  exists ref,
    target (VStr "custom") = Some ref
    /\ name (emission Error ref sample_site "e") = "custom".
Proof.
  destruct (string_named_call_logs_under_that_name "custom" Error
              sample_site "e" (exec (OpNamed (VStr "custom")) LOG.initial)
              (reachable_step (OpNamed (VStr "custom")) _ reachable_initial)
              eq_refl ltac:(discriminate)) as (ref & H1 & H2 & _).
  exists ref. exact (conj H1 H2).
Defined.
